(** * Genre classifier front end (script.js): feature pipeline and inference

    A shallow embedding of the worker script (resampling step, log-mel
    grid, [padOrTruncate]) and of the main-thread orchestration
    ([handleClassify], [runInference], [displayResults], [setLoading]).

    Conventions of the embedding.
    - JavaScript numbers that carry signal values (samples, band energies,
      log-mel values, probabilities) are rationals [Q]: every finite double
      is a rational, and the functions below only copy, compare and
      subtract them.  Sample rates are integers [Z]; frame and band counts
      are naturals.
    - Arrays are lists; [slice(0, n)] is [take n], [push] appends at the end.
    - Library calls whose code is not part of the script (Essentia,
      TensorFlow.js, [Math.log10]) are parameters of the functions that
      use them. *)

From Stdlib Require Import QArith Lqa DecimalString.
From stdpp Require Import base list sorting strings gmap.
From Equations Require Import Equations.

Open Scope Z_scope.
Open Scope nat_scope.

(** ** Worker script *)

Module Worker.

Definition frame := list Q.
Definition grid := list frame.

(** The value written into every cell of a padding frame:
    [Array(numMels).fill(-60)]. *)
Definition PAD_VALUE : Q := (-60)%Q.

(** [while (paddedGrid.length < numFrames) paddedGrid.push(padding)] *)
Equations? pad_loop (numFrames : nat) (padding : frame) (paddedGrid : grid)
  : grid by wf (numFrames - length paddedGrid) lt :=
  pad_loop numFrames padding paddedGrid with
      decide (length paddedGrid < numFrames) => {
    | left _ => pad_loop numFrames padding (paddedGrid ++ [padding]);
    | right _ => paddedGrid }.
Proof. rewrite length_app. simpl. lia. Qed.

(** [function padOrTruncate(grid, numFrames, numMels)].  The frames pushed
    by the loop are one and the same [padding] array; the message to the
    main thread carries copies, so only its contents matter. *)
Definition padOrTruncate (g : grid) (numFrames numMels : nat) : grid :=
  let currentFrames := length g in
  if decide (numFrames < currentFrames) then (* currentFrames > numFrames *)
    take numFrames g
  else if decide (currentFrames < numFrames) then
    let paddedGrid := g in
    let padding := replicate numMels PAD_VALUE in
    pad_loop numFrames padding paddedGrid
  else g.

(** A JavaScript exception is represented by its [message]; a computation
    that may throw is a sum, exceptions on the left. *)
Definition throws (A : Type) : Type := string + A.

Definition tbind {A B} (c : throws A) (k : A -> throws B) : throws B :=
  match c with
  | inl e => inl e
  | inr a => k a
  end.

Notation "'try!' x := c 'in' k" := (tbind c (fun x => k))
  (at level 10, x name, c at level 100, k at level 200, only parsing).

(** The two Essentia algorithms the worker calls.  Their code is in the
    Essentia library, not in the script: each may throw or return its
    output ([.signal], [.melbands]). *)
Record Essentia := {
  Resample : list Q -> Z -> Z -> throws (list Q);
  MelSpectrogram :
    list Q -> Z (* sampleRate *) -> nat (* frameSize *) -> nat (* hopSize *) ->
    nat (* numberBands *) -> string (* type *) -> string (* areaType *) ->
    Q (* lowBound *) -> Q (* highBound *) -> Q (* htk *) -> throws grid
}.

(** Messages of the worker protocol. *)
Inductive request :=
| Init (wasmPath : string)
| Process (audioData : list Q) (sampleRate targetSr : Z)
          (numMels numFrames : nat).

Inductive response :=
| Ready
| Result (features : grid)
| Error (message : string).

(** [e.message] of the [TypeError] raised by [essentia.arrayToVector] while
    [essentia] is still [undefined] (no 'init' message handled yet). *)
Definition ESSENTIA_UNDEFINED : string :=
  "Cannot read properties of undefined (reading 'arrayToVector')".

(** Step 2 of the 'process' branch:
    [let resampledVector = audioVector;
     if (sampleRate !== targetSr)
       resampledVector = essentia.Resample(audioVector, sampleRate, targetSr).signal;] *)
Definition resample_step (essentia : Essentia) (audioVector : list Q)
    (sampleRate targetSr : Z) : throws (list Q) :=
  if decide (sampleRate <> targetSr)
  then Resample essentia audioVector sampleRate targetSr
  else inr audioVector.

Definition EPSILON : Q := 1 # 1000000.

(** [frame.map(val => 10 * Math.log10(val + 1e-6))]; [Math.log10] is the
    engine's, passed in as [log10]. *)
Definition logFrame (log10 : Q -> Q) (fr : frame) : frame :=
  map (fun val => 10 * log10 (val + EPSILON))%Q fr.

(** The 'process' branch of the worker's [onmessage], with its
    [try { ... } catch (e) { postMessage({type: 'error', message: e.message}) }].
    The [for] loop over [melSpec.melbands] pushes one [logFrame] per
    frame, in order. *)
Definition process_body (essentia : option Essentia) (log10 : Q -> Q)
    (audioData : list Q) (sampleRate targetSr : Z) (numMels numFrames : nat)
  : throws grid :=
  match essentia with
  | None => inl ESSENTIA_UNDEFINED
  | Some es =>
      let audioVector := audioData in
      try! resampledVector :=
        resample_step es audioVector sampleRate targetSr in
      try! melbands :=
        MelSpectrogram es resampledVector targetSr 2048 1024 numMels
          "triangle" "unit_area" 0%Q (inject_Z targetSr / 2)%Q (1 # 2)%Q in
      let melSpecGrid := map (logFrame log10) melbands in
      let processedGrid := padOrTruncate melSpecGrid numFrames numMels in
      inr processedGrid
  end.

Definition process (essentia : option Essentia) (log10 : Q -> Q)
    (audioData : list Q) (sampleRate targetSr : Z) (numMels numFrames : nat)
  : response :=
  match process_body essentia log10 audioData sampleRate targetSr
          numMels numFrames with
  | inr processedGrid => Result processedGrid
  | inl message => Error message
  end.

End Worker.

(** ** The mel-spectrogram algorithm, as the design document describes it *)

Module SpecModel.
Import Worker.

(** Modelled from the spec: the framing of Essentia's [MelSpectrogram]
    (its code is not part of the script).  Short-time analysis with a frame
    of [frameSize] samples every [hopSize] samples, whole frames only: a
    frame starts at each multiple of [hopSize] that leaves [frameSize]
    samples, and a clip shorter than one frame gives no frame. *)
Equations? frames (frameSize hopSize : nat) (signal : list Q)
  : list (list Q) by wf (length signal) lt :=
  frames frameSize hopSize signal with
      decide (0 < frameSize <= length signal /\ 0 < hopSize) => {
    | left _ => take frameSize signal
                :: frames frameSize hopSize (drop hopSize signal);
    | right _ => [] }.
Proof. rewrite length_drop. lia. Qed.

(** Modelled from the spec: the filter bank of [MelSpectrogram], left
    abstract: from the number of bands, the sample rate, the filter type,
    the area normalisation, the frequency bounds and the [htk] argument to
    the function that turns one frame of samples into its band energies. *)
Definition filterBank : Type :=
  nat -> Z -> string -> string -> Q -> Q -> Q -> list Q -> frame.

(** Modelled from the spec: an Essentia instance whose [MelSpectrogram]
    cuts the signal with [frames] and turns every frame into its vector of
    band energies with [melBands]; [resample] is the resampling
    algorithm. *)
Definition specEssentia (resample : list Q -> Z -> Z -> throws (list Q))
    (melBands : filterBank) : Essentia :=
  {| Resample := resample;
     MelSpectrogram := fun signal sampleRate frameSize hopSize numberBands
                           type areaType lowBound highBound htk =>
       inr (map (melBands numberBands sampleRate type areaType
                   lowBound highBound htk)
                (frames frameSize hopSize signal)) |}.

End SpecModel.

(** ** Main thread *)

Module Main.
Import Worker.

(** *** Constants *)

Definition MODEL_EXPECTED_SAMPLE_RATE : Z := 22050.
Definition MODEL_INPUT_NUM_MELS : nat := 64.
Definition MODEL_INPUT_NUM_FRAMES : nat := 96.

Definition GENRE_CLASSES : list string :=
  ["blues"; "classical"; "country"; "disco"; "hiphop";
   "jazz"; "metal"; "pop"; "reggae"; "rock"].

(** *** TensorFlow.js, as far as the script uses it *)

Record Tensor := { shape : list nat; values : list Q }.

(** A tensor object the script holds: its identity in the engine's
    registry, its contents, and what [await t.data()] gives. *)
Record handle := { tid : nat; tensor : Tensor; data : throws (list Q) }.

(** What [model.predict(x)] does for this model: throw, or return the
    output tensor together with the outcome of reading it back. *)
Record GraphModel := {
  predict : Tensor -> throws (Tensor * throws (list Q))
}.

(** [tf.tensor(features)] on a nested array of numbers.  The shape is read
    off the array and its first row, the values are all the cells in order;
    the rows are not compared with one another (TensorFlow.js checks that
    only in its debug mode), so a ragged array is accepted and the number of
    values may differ from the size of the shape. *)
Definition tensor_of_array (features : grid) : throws Tensor :=
  match features with
  | [] => inr {| shape := [0]; values := [] |}
  | row :: _ =>
      inr {| shape := [length features; length row];
             values := concat features |}
  end.

(** [t.reshape(newShape)]: refused unless the new shape has the size of
    the tensor's shape. *)
Definition reshape_to (newShape : list nat) (t : Tensor) : throws Tensor :=
  if foldr Nat.mul 1 newShape =? foldr Nat.mul 1 (shape t)
  then inr {| shape := newShape; values := values t |}
  else inl "Size(s) do not match".

(** *** Application state *)

Record UI := {
  resultsSection_hidden : bool;
  loader_hidden : bool;
  resultsContent_hidden : bool;
  classifyBtn_disabled : bool;
  statusMessage : string;          (* statusMessage.textContent *)
  predictedGenre : string;         (* predictedGenreEl.textContent *)
  chart : option (list string * list Q)  (* bars Plotly shows: labels, values *)
}.

Record AudioBuffer := { channelData0 : list Q; sampleRate : Z }.

Record App := {
  ui : UI;
  model : option GraphModel;
  currentAudioBuffer : option AudioBuffer;
  posted : list request;   (* essentiaWorker.postMessage calls, oldest first *)
  live : gset nat;         (* tensors created and not yet disposed *)
  fresh : nat;             (* identity of the next tensor *)
  errors : list string     (* console.error lines, oldest first *)
}.

Definition with_ui (f : UI -> UI) (st : App) : App :=
  {| ui := f (ui st); model := model st;
     currentAudioBuffer := currentAudioBuffer st; posted := posted st;
     live := live st; fresh := fresh st; errors := errors st |}.

Definition with_model (m : option GraphModel) (st : App) : App :=
  {| ui := ui st; model := m;
     currentAudioBuffer := currentAudioBuffer st; posted := posted st;
     live := live st; fresh := fresh st; errors := errors st |}.

Definition with_audio (b : option AudioBuffer) (st : App) : App :=
  {| ui := ui st; model := model st;
     currentAudioBuffer := b; posted := posted st;
     live := live st; fresh := fresh st; errors := errors st |}.

Definition postMessage (r : request) (st : App) : App :=
  {| ui := ui st; model := model st;
     currentAudioBuffer := currentAudioBuffer st; posted := posted st ++ [r];
     live := live st; fresh := fresh st; errors := errors st |}.

Definition console_error (line : string) (st : App) : App :=
  {| ui := ui st; model := model st;
     currentAudioBuffer := currentAudioBuffer st; posted := posted st;
     live := live st; fresh := fresh st; errors := errors st ++ [line] |}.

(** Registering a new tensor and disposing one. *)
Definition register (t : Tensor) (rd : throws (list Q)) (st : App)
  : handle * App :=
  ({| tid := fresh st; tensor := t; data := rd |},
   {| ui := ui st; model := model st;
      currentAudioBuffer := currentAudioBuffer st; posted := posted st;
      live := {[fresh st]} ∪ live st; fresh := S (fresh st);
      errors := errors st |}).

Definition dispose (h : handle) (st : App) : App :=
  {| ui := ui st; model := model st;
     currentAudioBuffer := currentAudioBuffer st; posted := posted st;
     live := live st ∖ {[tid h]}; fresh := fresh st; errors := errors st |}.

(** *** UI utility functions *)

(** [message || fallback] on strings: the empty string is falsy. *)
Definition or_default (message fallback : string) : string :=
  if decide (message = "") then fallback else message.

Definition updateStatus (message : string) (u : UI) : UI :=
  {| resultsSection_hidden := resultsSection_hidden u;
     loader_hidden := loader_hidden u;
     resultsContent_hidden := resultsContent_hidden u;
     classifyBtn_disabled := classifyBtn_disabled u;
     statusMessage := message;
     predictedGenre := predictedGenre u;
     chart := chart u |}.

(** [function setLoading(isLoading, message = '')] *)
Definition setLoading (isLoading : bool) (message : string) (u : UI) : UI :=
  if isLoading then
    updateStatus (or_default message "Processing...")
      {| resultsSection_hidden := false;
         loader_hidden := false;
         resultsContent_hidden := true;
         classifyBtn_disabled := true;
         statusMessage := statusMessage u;
         predictedGenre := predictedGenre u;
         chart := chart u |}
  else
    updateStatus (or_default message "Classification complete.")
      {| resultsSection_hidden := resultsSection_hidden u;
         loader_hidden := true;
         resultsContent_hidden := false;
         classifyBtn_disabled := false;
         statusMessage := statusMessage u;
         predictedGenre := predictedGenre u;
         chart := chart u |}.

(** [function resetResults()] *)
Definition resetResults (u : UI) : UI :=
  {| resultsSection_hidden := true;
     loader_hidden := true;
     resultsContent_hidden := true;
     classifyBtn_disabled := classifyBtn_disabled u;
     statusMessage := statusMessage u;
     predictedGenre := "...";
     chart := None |}.

(** [function drawChart(labels, values)]: one Plotly bar per label. *)
Definition drawChart (labels : list string) (vals : list Q) (u : UI) : UI :=
  {| resultsSection_hidden := resultsSection_hidden u;
     loader_hidden := loader_hidden u;
     resultsContent_hidden := resultsContent_hidden u;
     classifyBtn_disabled := classifyBtn_disabled u;
     statusMessage := statusMessage u;
     predictedGenre := predictedGenre u;
     chart := Some (labels, vals) |}.

Definition set_predictedGenre (g : string) (u : UI) : UI :=
  {| resultsSection_hidden := resultsSection_hidden u;
     loader_hidden := loader_hidden u;
     resultsContent_hidden := resultsContent_hidden u;
     classifyBtn_disabled := classifyBtn_disabled u;
     statusMessage := statusMessage u;
     predictedGenre := g;
     chart := chart u |}.

(** [wavesurfer.on('ready', ...)]: the classify button is enabled. *)
Definition wavesurfer_ready (u : UI) : UI :=
  {| resultsSection_hidden := resultsSection_hidden u;
     loader_hidden := loader_hidden u;
     resultsContent_hidden := resultsContent_hidden u;
     classifyBtn_disabled := false;
     statusMessage := statusMessage u;
     predictedGenre := predictedGenre u;
     chart := chart u |}.

(** *** Result ranking *)

(** [Array.prototype.sort(comparefn)].  ECMAScript makes the sort stable
    and orders [b] before [a] exactly when [comparefn(a, b) > 0]; the
    model is the stable insertion sort.  For the comparator of
    [displayResults] the sorted array is the same whatever algorithm the
    engine runs ([Array_sort_unique] below). *)
Section ArraySort.
Context {A : Type} (comparefn : A -> A -> Q).

Definition swaps (a b : A) : bool := negb (Qle_bool (comparefn a b) 0).

Fixpoint sort_insert (x : A) (sorted : list A) : list A :=
  match sorted with
  | [] => [x]
  | y :: rest =>
      if swaps x y then y :: sort_insert x rest else x :: y :: rest
  end.

Definition Array_sort (l : list A) : list A := foldr sort_insert [] l.

End ArraySort.

(** The comparator [(a, b) => key(b) - key(a)]: descending by [key]. *)
Definition desc {A : Type} (key : A -> Q) (a b : A) : Q :=
  (key b - key a)%Q.

Record result := { genre : string; probability : Q }.

(** [GENRE_CLASSES[i] || 'Unknown'] *)
Definition label_at (i : nat) : string :=
  match GENRE_CLASSES !! i with
  | Some g => or_default g "Unknown"
  | None => "Unknown"
  end.

(** [(a, b) => b.probability - a.probability] *)
Definition by_probability_desc (a b : result) : Q :=
  (probability b - probability a)%Q.

(** [Array.from(probabilities).map((prob, i) => ({genre: ..., probability: prob}))] *)
Definition labelled (probabilities : list Q) : list result :=
  imap (fun i prob => {| genre := label_at i; probability := prob |})
       probabilities.

(** The [results] array of [displayResults]. *)
Definition rank (probabilities : list Q) : list result :=
  Array_sort by_probability_desc (labelled probabilities).

(** The scores paired with their index in the probability vector. *)
Definition indexed (probabilities : list Q) : list (nat * Q) :=
  imap (fun i prob => (i, prob)) probabilities.

(** The entry [displayResults] builds for index [i]. *)
Definition entry (probabilities : list Q) (i : nat) : result :=
  {| genre := label_at i; probability := nth i probabilities 0%Q |}.

(** Sum of a list of scores. *)
Definition total (scores : list Q) : Q := foldr Qplus 0%Q scores.

Definition top5 (results : list result) : list result := take 5 results.

(** [function displayResults(probabilities)] with a chart call that
    returns.  With an empty vector [results[0]] is [undefined] and reading
    [topGenre.genre] throws, before anything is written.  A chart call that
    throws, after the genre text is written, is covered by
    [Plot.displayResults_plot]. *)
Definition displayResults (probabilities : list Q) (u : UI) : throws UI :=
  let results := rank probabilities in
  match results with
  | [] => inl "Cannot read properties of undefined (reading 'genre')"
  | topGenre :: _ =>
      let u := set_predictedGenre (genre topGenre) u in
      let labels := map genre (top5 results) in
      let vals := map (fun r => probability r * 100)%Q (top5 results) in
      let u := drawChart labels vals u in
      inr (setLoading false "" u)
  end.

(** *** Inference *)

(** Code of the [try] block of [runInference]: state is the application
    state plus the local [prediction], which the [catch] block reads. *)
Record Frame := { app : App; prediction : option handle }.

Definition M (A : Type) : Type := Frame -> throws A * Frame.

Definition mret {A} (a : A) : M A := fun fr => (inr a, fr).

Definition mbind {A B} (c : M A) (k : A -> M B) : M B :=
  fun fr =>
    match c fr with
    | (inl e, fr') => (inl e, fr')
    | (inr a, fr') => k a fr'
    end.

Notation "'run!' x := c 'in' k" := (mbind c (fun x => k))
  (at level 10, x name, c at level 100, k at level 200, only parsing).
Notation "'step!' c 'in' k" := (mbind c (fun _ => k))
  (at level 10, c at level 100, k at level 200, only parsing).

Definition lift_throws {A} (c : throws A) : M A := fun fr => (c, fr).

Definition on_app (f : App -> App) : M unit :=
  fun fr => (inr tt, {| app := f (app fr); prediction := prediction fr |}).

Definition new_tensor (t : Tensor) (rd : throws (list Q)) : M handle :=
  fun fr =>
    let '(h, st) := register t rd (app fr) in
    (inr h, {| app := st; prediction := prediction fr |}).

Definition assign_prediction (h : handle) : M unit :=
  fun fr => (inr tt, {| app := app fr; prediction := Some h |}).

(** [tf.tensor(a)], [t.reshape(s)], [model.predict(t)], [await t.data()] *)
Definition tf_tensor (features : grid) : M handle :=
  run! t := lift_throws (tensor_of_array features) in
  new_tensor t (inr (values t)).

Definition tf_reshape (newShape : list nat) (h : handle) : M handle :=
  run! t := lift_throws (reshape_to newShape (tensor h)) in
  new_tensor t (inr (values t)).

Definition model_predict (m : GraphModel) (x : handle) : M handle :=
  run! out := lift_throws (predict m (tensor x)) in
  new_tensor (fst out) (snd out).

Definition tensor_data (h : handle) : M (list Q) := lift_throws (data h).

Definition ui_throws (f : UI -> throws UI) : M unit :=
  fun fr =>
    match f (ui (app fr)) with
    | inl e => (inl e, fr)
    | inr u => (inr tt, {| app := with_ui (fun _ => u) (app fr);
                           prediction := prediction fr |})
    end.

Definition runInference_try (m : GraphModel) (features : grid) : M unit :=
  run! raw := tf_tensor features in
  run! inputTensor :=
    tf_reshape [1; MODEL_INPUT_NUM_FRAMES; MODEL_INPUT_NUM_MELS; 1] raw in
  run! p := model_predict m inputTensor in
  step! assign_prediction p in
  run! probabilities := tensor_data p in
  step! on_app (dispose inputTensor) in
  step! on_app (dispose p) in
  ui_throws (displayResults probabilities).

Definition runInference_catch (e : string) (fr : Frame) : App :=
  let st := console_error ("Error during inference: " +:+ e) (app fr) in
  let st := with_ui (setLoading false "Inference failed.") st in
  match prediction fr with
  | Some p => dispose p st
  | None => st
  end.

(** [async function runInference(features)], run to completion. *)
Definition runInference (features : grid) (st : App) : App :=
  match model st with
  | None =>
      let st := console_error "Model not loaded." st in
      with_ui (setLoading false "Error: Model not loaded.") st
  | Some m =>
      let st := with_ui (setLoading true "Classifying...") st in
      match runInference_try m features {| app := st; prediction := None |} with
      | (inr _, fr) => app fr
      | (inl e, fr) => runInference_catch e fr
      end
  end.

(** *** Event handlers *)

(** [essentiaWorker.onmessage] *)
Definition essentiaWorker_onmessage (r : response) (st : App) : App :=
  match r with
  | Ready =>
      with_ui (updateStatus
                 "Model loaded. Essentia.js ready. Select a file or record.") st
  | Result features => runInference features st
  | Error message =>
      let st := console_error
                  ("Error from Essentia.js worker: " +:+ message) st in
      with_ui (setLoading false "Feature extraction failed.") st
  end.

(** [function handleClassify()] *)
Definition handleClassify (st : App) : App :=
  match currentAudioBuffer st, model st with
  | Some buf, Some _ =>
      let st := with_ui (setLoading true "Extracting features...") st in
      postMessage (Process (channelData0 buf) (sampleRate buf)
                     MODEL_EXPECTED_SAMPLE_RATE
                     MODEL_INPUT_NUM_MELS MODEL_INPUT_NUM_FRAMES) st
  | _, _ => with_ui (updateStatus "Error: Audio or model not ready.") st
  end.

(** [async function loadModel()]: [loaded] is the outcome of
    [tf.loadGraphModel(MODEL_URL)].  [initWorker] has run before, so the
    [essentiaWorker] test of the source is true. *)
Definition loadModel (loaded : throws GraphModel) (st : App) : App :=
  let failed e st :=
    with_ui (updateStatus "Error: Could not load the ML model.")
      (console_error e st) in
  match loaded with
  | inl e => failed e st
  | inr m =>
      let st := with_model (Some m) st in
      let zeros :=
        {| shape := [1; MODEL_INPUT_NUM_FRAMES; MODEL_INPUT_NUM_MELS; 1];
           values := replicate
             (MODEL_INPUT_NUM_FRAMES * MODEL_INPUT_NUM_MELS) 0%Q |} in
      let '(z, st) := register zeros (inr (values zeros)) st in
      match predict m (tensor z) with
      | inl e => failed e st
      | inr out =>
          let '(p, st) := register (fst out) (snd out) st in
          let st := dispose p st in
          with_ui (updateStatus
            "Model loaded. Essentia.js ready. Select a file or record.") st
      end
  end.

(** [async function handleFile(file)] for a file that is there; [decoded]
    is the outcome of [file.arrayBuffer()] and [decodeAudioData]. *)
Definition handleFile (decoded : throws AudioBuffer) (st : App) : App :=
  let st := with_ui resetResults st in
  let st := with_ui (updateStatus "Loading audio file...") st in
  match decoded with
  | inr buf =>
      let st := with_audio (Some buf) st in
      with_ui (updateStatus "Audio loaded. Ready to classify.") st
  | inl e =>
      with_ui (updateStatus "Error: Could not decode audio file.")
        (console_error e st)
  end.

(** *** One classification attempt across the worker boundary *)

(** The worker's answer to the newest posted message, if it is a
    'process' request. *)
Definition worker_answer (essentia : option Essentia) (log10 : Q -> Q)
    (st : App) : option response :=
  match last (posted st) with
  | Some (Process audioData sr targetSr numMels numFrames) =>
      Some (process essentia log10 audioData sr targetSr numMels numFrames)
  | _ => None
  end.

(** Click on "Classify": [handleClassify], and when a request went out,
    the worker's answer handled by [essentiaWorker.onmessage]. *)
Definition classify (essentia : option Essentia) (log10 : Q -> Q)
    (st : App) : App :=
  let st1 := handleClassify st in
  if decide (length (posted st1) = S (length (posted st))) then
    match worker_answer essentia log10 st1 with
    | Some r => essentiaWorker_onmessage r st1
    | None => st1
    end
  else st1.

End Main.

(** ** Inference with a chart call that may throw *)

Module Plot.
Import Worker Main.

(** What a call of [Plotly.newPlot] does: draw the bars, or throw and
    leave some chart (or none) in the container. *)
Inductive plotted :=
| Drawn
| PlotThrows (e : string) (leftover : option (list string * list Q)).

Definition plotter : Type := list string -> list Q -> plotted.

Definition set_chart (c : option (list string * list Q)) (u : UI) : UI :=
  {| resultsSection_hidden := resultsSection_hidden u;
     loader_hidden := loader_hidden u;
     resultsContent_hidden := resultsContent_hidden u;
     classifyBtn_disabled := classifyBtn_disabled u;
     statusMessage := statusMessage u;
     predictedGenre := predictedGenre u;
     chart := c |}.

(** [function displayResults(probabilities)], statement by statement: the
    genre text is written first, then [drawChart] calls [newPlot], then
    [setLoading(false)].  The page reached is returned also when a
    statement throws.  [Main.displayResults] is the case of a chart call
    that returns. *)
Definition displayResults_plot (newPlot : plotter) (probabilities : list Q)
    (u : UI) : throws unit * UI :=
  let results := rank probabilities in
  match results with
  | [] => (inl "Cannot read properties of undefined (reading 'genre')", u)
  | topGenre :: _ =>
      let u := set_predictedGenre (genre topGenre) u in
      let labels := map genre (top5 results) in
      let vals := map (fun r => probability r * 100)%Q (top5 results) in
      match newPlot labels vals with
      | PlotThrows e leftover => (inl e, set_chart leftover u)
      | Drawn => (inr tt, setLoading false "" (drawChart labels vals u))
      end
  end.

Definition ui_run (f : UI -> throws unit * UI) : M unit :=
  fun fr =>
    let '(r, u) := f (ui (app fr)) in
    (r, {| app := with_ui (fun _ => u) (app fr);
           prediction := prediction fr |}).

(** The [try] block of [runInference] and [runInference] itself, with
    that [displayResults]. *)
Definition runInference_try_plot (newPlot : plotter) (m : GraphModel)
    (features : grid) : M unit :=
  run! raw := tf_tensor features in
  run! inputTensor :=
    tf_reshape [1; MODEL_INPUT_NUM_FRAMES; MODEL_INPUT_NUM_MELS; 1] raw in
  run! p := model_predict m inputTensor in
  step! assign_prediction p in
  run! probabilities := tensor_data p in
  step! on_app (dispose inputTensor) in
  step! on_app (dispose p) in
  ui_run (displayResults_plot newPlot probabilities).

Definition runInference_plot (newPlot : plotter) (features : grid)
    (st : App) : App :=
  match model st with
  | None =>
      let st := console_error "Model not loaded." st in
      with_ui (setLoading false "Error: Model not loaded.") st
  | Some m =>
      let st := with_ui (setLoading true "Classifying...") st in
      match runInference_try_plot newPlot m features
              {| app := st; prediction := None |} with
      | (inr _, fr) => app fr
      | (inl e, fr) => runInference_catch e fr
      end
  end.

End Plot.

(** ** Concrete inputs used in the examples *)

Module Fixtures.
Import Worker Main Plot.

(** An Essentia instance that resamples by repeating the signal and whose
    mel-spectrogram has no frame. *)
Definition stubEssentia : Essentia :=
  {| Resample := fun signal _ _ => inr (signal ++ signal);
     MelSpectrogram := fun _ _ _ _ _ _ _ _ _ _ => inr [] |}.

(** An Essentia instance whose resampler refuses every call. *)
Definition failingEssentia : Essentia :=
  {| Resample := fun _ _ _ => inl "Resample: bad sample rate";
     MelSpectrogram := fun _ _ _ _ _ _ _ _ _ _ => inr [] |}.

Definition stubLog10 : Q -> Q := fun _ => (-6)%Q.

(** Eleven scores, one more than there are genres; the last is the
    largest. *)
Definition elevenScores : list Q :=
  replicate 10 (1 # 20)%Q ++ [(1 # 2)%Q].

(** Scores of a classifier that favours the last genre. *)
Definition tenScores : list Q := replicate 9 (1 # 10)%Q ++ [(9 # 10)%Q].

Definition outTensor : Tensor := {| shape := [1; 10]; values := tenScores |}.

(** Three classifiers: one that answers [tenScores], one whose [predict]
    throws, one whose output cannot be read back. *)
Definition workingModel : GraphModel :=
  {| predict := fun _ => inr (outTensor, inr tenScores) |}.

Definition throwingModel : GraphModel :=
  {| predict := fun _ => inl "predict failed" |}.

Definition unreadableModel : GraphModel :=
  {| predict := fun _ => inr (outTensor, inl "data read failed") |}.


(** A grid of 96 padding frames. *)
Definition silenceGrid : grid :=
  replicate MODEL_INPUT_NUM_FRAMES (replicate MODEL_INPUT_NUM_MELS PAD_VALUE).

(** 96 frames of which the second has 63 cells instead of 64. *)
Definition raggedGrid : grid :=
  replicate 64 PAD_VALUE :: replicate 63 PAD_VALUE
  :: replicate 94 (replicate 64 PAD_VALUE).

(** [silenceGrid] as the tensor handed to the classifier. *)
Definition silenceTensor : Tensor :=
  {| shape := [1; MODEL_INPUT_NUM_FRAMES; MODEL_INPUT_NUM_MELS; 1];
     values := concat silenceGrid |}.

(** A resampler that returns its input and a filter bank that answers
    zero energy in every band. *)
Definition noResample : list Q -> Z -> Z -> throws (list Q) :=
  fun signal _ _ => inr signal.

Definition zeroBands : SpecModel.filterBank :=
  fun numberBands _ _ _ _ _ _ _ => replicate numberBands 0%Q.

(** 5000 samples: room for three frames. *)
Definition longSignal : list Q := replicate 5000 0%Q.

(** A clip of 1000 samples at the model's rate. *)
Definition clip : AudioBuffer :=
  {| channelData0 := replicate 1000 0%Q; sampleRate := 22050 |}.


(** A results area after [resetResults], classify button enabled. *)
Definition blankUI : UI :=
  {| resultsSection_hidden := true;
     loader_hidden := true;
     resultsContent_hidden := true;
     classifyBtn_disabled := false;
     statusMessage := "Audio loaded. Ready to classify.";
     predictedGenre := "...";
     chart := None |}.

(** The application once a clip is decoded and the classifier [m] loaded:
    nothing classified yet, no tensor registered. *)
Definition readyApp (m : GraphModel) : App :=
  {| ui := blankUI;
     model := Some m;
     currentAudioBuffer := Some clip;
     posted := [Init "essentia-wasm.module.js"];
     live := ∅;
     fresh := 0;
     errors := [] |}.

End Fixtures.

(** ** Predicates used to state the claims *)

Module Props.
Import Main.


(** The interface [setLoading(false, message)] leaves when it ends a
    loading state entered from [u]: results section and results content
    shown, loader hidden, button enabled, result fields as in [u]. *)
Definition shown_with (message : string) (u : UI) : UI :=
  {| resultsSection_hidden := false;
     loader_hidden := true;
     resultsContent_hidden := false;
     classifyBtn_disabled := false;
     statusMessage := message;
     predictedGenre := predictedGenre u;
     chart := chart u |}.

End Props.

(** ** The worker's message loop, file intake and the recording timer *)

Module Page.
Import Worker Main.

(** The worker's [onmessage]; the state is its global [essentia].  For an
    'init' message [imported] is the outcome of loading the WASM module and
    constructing [Essentia] from it: when that fails the handler's promise
    rejects, nothing is posted and [essentia] stays as it was. *)
Definition onmessage (imported : throws Essentia) (log10 : Q -> Q)
    (essentia : option Essentia) (r : request)
  : option Essentia * option response :=
  match r with
  | Init _ =>
      match imported with
      | inr es => (Some es, Some Ready)
      | inl _ => (essentia, None)
      end
  | Process audioData sampleRate targetSr numMels numFrames =>
      (essentia,
       Some (process essentia log10 audioData sampleRate targetSr
               numMels numFrames))
  end.

(** The worker handling a queue of messages in order: final state and the
    messages posted back, oldest first. *)
Fixpoint serve (imported : throws Essentia) (log10 : Q -> Q)
    (essentia : option Essentia) (queue : list request)
  : option Essentia * list response :=
  match queue with
  | [] => (essentia, [])
  | r :: queue' =>
      let '(essentia', answer) := onmessage imported log10 essentia r in
      let '(final, answers) := serve imported log10 essentia' queue' in
      (final, match answer with
              | Some a => a :: answers
              | None => answers
              end)
  end.

(** A file handed to the page: its MIME type and what decoding it gives. *)
Record File := { type : string; decoding : throws AudioBuffer }.

(** [function handleDrop(e)], with [e.dataTransfer.files] *)
Definition handleDrop (files : list File) (st : App) : App :=
  match head files with
  | Some file =>
      if String.prefix "audio/" (type file)
      then handleFile (decoding file) st
      else with_ui (updateStatus "Error: Please drop a valid audio file.") st
  | None => with_ui (updateStatus "Error: Please drop a valid audio file.") st
  end.

(** The [change] listener of the file input, with [e.target.files] *)
Definition fileInput_change (files : list File) (st : App) : App :=
  match files with
  | file :: _ => handleFile (decoding file) st
  | [] => st
  end.

(** Wavesurfer's events.  [ready] also un-hides the control section, which
    is not part of [UI]. *)
Definition wavesurfer_on_ready (st : App) : App := with_ui wavesurfer_ready st.

Definition wavesurfer_on_error (e : string) (st : App) : App :=
  with_ui (updateStatus "Error: Could not load audio file.")
    (console_error e st).

(** [n.toString()] for a non-negative integer. *)
Definition toString (n : nat) : string :=
  NilZero.string_of_uint (Nat.to_uint n).

(** [s.padStart(targetLength, '0')] *)
Definition padStart0 (targetLength : nat) (s : string) : string :=
  String.concat "" (replicate (targetLength - String.length s) "0") +:+ s.

(** The text the recording timer shows for [secondsElapsed]:
    [`${minutes}:${seconds}`]. *)
Definition timerText (secondsElapsed : nat) : string :=
  let minutes := padStart0 2 (toString (secondsElapsed / 60)) in
  let seconds := padStart0 2 (toString (secondsElapsed mod 60)) in
  minutes +:+ ":" +:+ seconds.

(** The recording timer: [secondsElapsed] and [timerDisplay.textContent].
    Starting a recording resets both; the interval callback counts one
    second and rewrites the text. *)
Definition timer_start : nat * string := (0, "00:00").

Definition timer_tick (t : nat * string) : nat * string :=
  let secondsElapsed := S (fst t) in
  (secondsElapsed, timerText secondsElapsed).

(** Reading a two-digit field of the timer text back as a number. *)
Definition digit_value (c : Ascii.ascii) : nat := Ascii.nat_of_ascii c - 48.

Definition read_timer (text : string) : option nat :=
  match String.list_ascii_of_string text with
  | [m1; m0; sep; s1; s0] =>
      if Ascii.eqb sep (Ascii.ascii_of_nat 58) (* ':' *)
      then Some (60 * (10 * digit_value m1 + digit_value m0)
                 + (10 * digit_value s1 + digit_value s0))
      else None
  | _ => None
  end.

End Page.

(** ** Invariants *)

Module Invariants.
Import Main.

(** Tensor identities are handed out in increasing order: every
    registered tensor is older than the next identity. *)
Definition heap_ok (st : App) : Prop :=
  forall i, i ∈ live st -> i < fresh st.

(** All frames of a grid have [width] cells. *)
Definition rectangular (width : nat) (g : Worker.grid) : Prop :=
  Forall (fun fr => length fr = width) g.

(** The size of the shape [tf.tensor] reads off a nested array: rows times
    cells of the first row. *)
Definition inferred_size (features : Worker.grid) : nat :=
  match features with
  | [] => 0
  | row :: _ => length features * length row
  end.

(** The shape [runInference] reshapes to, and the tensor [loadModel] feeds
    the classifier to warm it up: [tf.zeros([1, 96, 64, 1])]. *)
Definition INPUT_SHAPE : list nat :=
  [1; MODEL_INPUT_NUM_FRAMES; MODEL_INPUT_NUM_MELS; 1].

Definition warmupTensor : Tensor :=
  {| shape := INPUT_SHAPE;
     values := replicate (MODEL_INPUT_NUM_FRAMES * MODEL_INPUT_NUM_MELS) 0%Q |}.

End Invariants.

(** ** Frame Normalizer *)

Section FrameNormalizer.
Import Worker.

Lemma pad_loop_spec numFrames padding (g : grid) :
  pad_loop numFrames padding g
  = g ++ replicate (numFrames - length g) padding.
Proof.
  funelim (pad_loop numFrames padding g).
  - match goal with IH : pad_loop _ _ _ = _ ++ _ |- _ => rewrite IH end.
    rewrite length_app; simpl.
    replace (numFrames - length paddedGrid)
      with (S (numFrames - (length paddedGrid + 1))) by lia.
    simpl. by rewrite <- app_assoc.
  - replace (numFrames - length paddedGrid) with 0 by lia.
    simpl. by rewrite app_nil_r.
Qed.

Lemma padOrTruncate_length (g : grid) numFrames numMels :
  length (padOrTruncate g numFrames numMels) = numFrames.
Proof.
  unfold padOrTruncate. repeat case_decide.
  - rewrite length_take. lia.
  - rewrite pad_loop_spec, length_app, length_replicate. lia.
  - lia.
Qed.

Lemma padOrTruncate_truncates (g : grid) numFrames numMels :
  numFrames <= length g ->
  padOrTruncate g numFrames numMels = take numFrames g.
Proof.
  intros Hle. unfold padOrTruncate. repeat case_decide; try lia; try done.
  by rewrite take_ge by lia.
Qed.

Lemma padOrTruncate_pads (g : grid) numFrames numMels :
  length g < numFrames ->
  padOrTruncate g numFrames numMels
  = g ++ replicate (numFrames - length g) (replicate numMels PAD_VALUE).
Proof.
  intros Hlt. unfold padOrTruncate. repeat case_decide; try lia.
  apply pad_loop_spec.
Qed.

Lemma padOrTruncate_same (g : grid) numMels :
  padOrTruncate g (length g) numMels = g.
Proof. unfold padOrTruncate. repeat case_decide; try lia. done. Qed.

End FrameNormalizer.

(** ** Frame Normalizer: the claims *)

Section FrameNormalizerClaims.
Import Worker.

(** C1 (as amended).  For every grid with [F] frames and every target [N],
    [padOrTruncate] returns exactly [N] frames; when [F >= N] they are the
    first [N] frames of the input; when [F < N] the first [F] frames are the
    input and each of the other [N - F] frames is [numMels] copies of
    [-60]; when [F = N] the input is returned unchanged. *)
Theorem padOrTruncate_contract (g : grid) (N numMels : nat) :
  let out := padOrTruncate g N numMels in
  length out = N
  /\ (N <= length g -> take N out = take N g)
  /\ (length g < N ->
      take (length g) out = g
      /\ drop (length g) out
         = replicate (N - length g) (replicate numMels PAD_VALUE))
  /\ (length g = N -> out = g).
Proof.
  cbv zeta. split; [apply padOrTruncate_length |]. split; [| split].
  - intros Hle. rewrite padOrTruncate_truncates by done.
    by rewrite take_take, Nat.min_id.
  - intros Hlt. rewrite padOrTruncate_pads by done. split.
    + by rewrite take_app_length.
    + by rewrite drop_app_length.
  - intros <-. apply padOrTruncate_same.
Qed.

Lemma padOrTruncate_contract_witness :
  let g := [[1%Q; 2%Q]] in
  let out := padOrTruncate g 3 2 in
  length out = 3
  /\ take 1 out = g
  /\ drop 1 out = [[PAD_VALUE; PAD_VALUE]; [PAD_VALUE; PAD_VALUE]].
Proof.
  cbv zeta.
  destruct (padOrTruncate_contract [[1%Q; 2%Q]] 3 2) as (Hlen & _ & Hpad & _).
  destruct Hpad as [Htake Hdrop]; [simpl; lia |].
  split; [exact Hlen |]. split; [exact Htake | exact Hdrop].
Defined.

(** C1 as stated fails: with one frame, target 3 and 2 mel bands, a padding
    frame has 2 cells, not 3 (the target frame count). *)
Lemma padOrTruncate_padding_width_counterexample :
  let g := [[1%Q; 2%Q]] in
  length g < 3
  /\ drop (length g) (padOrTruncate g 3 2)
     <> replicate (3 - length g) (replicate 3 PAD_VALUE).
Proof. cbv zeta. split; [simpl; lia |]. vm_compute. discriminate. Qed.

End FrameNormalizerClaims.

(** ** Resampling step *)

Section ResamplerClaims.
Import Worker.

Lemma resample_step_equal_rates es (samples : list Q) (r : Z) :
  resample_step es samples r r = inr samples.
Proof. unfold resample_step. case_decide; [congruence | done]. Qed.

Lemma resample_step_distinct_rates es (samples : list Q) (r_in r_out : Z) :
  r_in <> r_out -> resample_step es samples r_in r_out = Resample es samples r_in r_out.
Proof. intros Hne. unfold resample_step. case_decide; [done | contradiction]. Qed.

(** C6.  Resampling a sequence from a rate to the same rate returns the
    sequence unchanged, whatever the sequence and the rate; Essentia's
    resampler is not consulted, so the worker's answer is the same with any
    other resampler. *)
Theorem resample_identity (es : Essentia) (samples : list Q) (r : Z) :
  resample_step es samples r r = inr samples
  /\ forall resample' log10 numMels numFrames,
       process (Some es) log10 samples r r numMels numFrames
       = process (Some {| Resample := resample';
                          MelSpectrogram := MelSpectrogram es |})
                 log10 samples r r numMels numFrames.
Proof.
  split; [apply resample_step_equal_rates |].
  intros resample' log10 numMels numFrames.
  unfold process, process_body.
  by rewrite !resample_step_equal_rates.
Qed.

(** C4 (as amended).  The resampling step checks no rate: with equal rates
    it returns the samples unchanged, with different rates it returns or
    throws exactly what Essentia's [Resample] does, and an exception it
    throws reaches the main thread as an 'error' message carrying the
    exception's text. *)
Theorem resample_step_unchecked (es : Essentia) (samples : list Q) (r_in r_out : Z) :
  (r_in = r_out -> resample_step es samples r_in r_out = inr samples)
  /\ (r_in <> r_out ->
      resample_step es samples r_in r_out = Resample es samples r_in r_out)
  /\ (forall e log10 numMels numFrames,
        resample_step es samples r_in r_out = inl e ->
        process (Some es) log10 samples r_in r_out numMels numFrames = Error e).
Proof.
  split; [| split].
  - intros ->. apply resample_step_equal_rates.
  - apply resample_step_distinct_rates.
  - intros e log10 numMels numFrames He.
    unfold process, process_body. by rewrite He.
Qed.

Lemma resample_step_unchecked_witness :
  resample_step Fixtures.failingEssentia [1%Q] (-5) (-5) = inr [1%Q]
  /\ resample_step Fixtures.failingEssentia [1%Q] 0 22050
     = inl "Resample: bad sample rate"
  /\ process (Some Fixtures.failingEssentia) Fixtures.stubLog10
       [1%Q] 0 22050 64 96
     = Error "Resample: bad sample rate".
Proof.
  destruct (resample_step_unchecked Fixtures.failingEssentia [1%Q] (-5) (-5))
    as (Heq & _ & _).
  destruct (resample_step_unchecked Fixtures.failingEssentia [1%Q] 0 22050)
    as (_ & Hne & Herr).
  split; [apply Heq; reflexivity |].
  split; [rewrite Hne by lia; reflexivity |].
  apply Herr. rewrite Hne by lia. reflexivity.
Defined.

(** C4 as stated fails: a call whose two rates are both [0] (or both
    negative) is not rejected; the samples come back unchanged. *)
Lemma resample_step_rate_counterexample :
  (0 <= 0)%Z
  /\ resample_step Fixtures.failingEssentia [1%Q; 2%Q] 0 0 = inr [1%Q; 2%Q]
  /\ ~ (forall es samples r_in r_out,
          (r_in <= 0 \/ r_out <= 0)%Z ->
          exists e, resample_step es samples r_in r_out = inl e).
Proof.
  split; [lia |]. split; [reflexivity |].
  intros Hall.
  destruct (Hall Fixtures.failingEssentia [1%Q; 2%Q] 0%Z 0%Z) as [e He];
    [left; lia | discriminate He].
Qed.

End ResamplerClaims.

(** ** Result Ranker *)

(** Facts about [Array_sort] for any comparator. *)
Section ArraySortFacts.
Import Main.
Context {A : Type} (comparefn : A -> A -> Q).

Lemma sort_insert_perm (x : A) (l : list A) :
  sort_insert comparefn x l ≡ₚ x :: l.
Proof.
  induction l as [| y l IH]; simpl; [done |].
  destruct (swaps comparefn x y); [| done].
  rewrite IH. apply Permutation_swap.
Qed.

Lemma Array_sort_perm (l : list A) : Array_sort comparefn l ≡ₚ l.
Proof.
  induction l as [| x l IH]; simpl; [done |].
  rewrite sort_insert_perm. by rewrite IH.
Qed.

Lemma Array_sort_length (l : list A) :
  length (Array_sort comparefn l) = length l.
Proof. by rewrite Array_sort_perm. Qed.

(** Sorting commutes with a map that respects the comparators. *)
Lemma Array_sort_fmap {B : Type} (comparefn' : B -> B -> Q) (f : B -> A)
    (l : list B) :
  (forall a b, comparefn (f a) (f b) = comparefn' a b) ->
  Array_sort comparefn (f <$> l) = f <$> Array_sort comparefn' l.
Proof.
  intros Hcmp. unfold Array_sort.
  induction l as [| x l IH]; csimpl; [done |].
  rewrite IH. clear IH.
  induction (foldr (sort_insert comparefn') [] l) as [| y s IHs];
    csimpl; [done |].
  unfold swaps. rewrite Hcmp.
  destruct (negb _); csimpl; [| done]. by rewrite <- IHs.
Qed.

End ArraySortFacts.

(** Facts about [Array_sort] for the comparator [key b - key a]
    (descending by [key]). *)
Section SortDescending.
Import Main.
Context {A : Type} (key : A -> Q).

Lemma swaps_desc (a b : A) : swaps (desc key) a b = true <-> (key a < key b)%Q.
Proof.
  unfold swaps, desc. rewrite negb_true_iff.
  destruct (Qle_bool (key b - key a) 0) eqn:E.
  - apply Qle_bool_iff in E. split; [done | lra].
  - split; [| done]. intros _.
    destruct (Qlt_le_dec (key a) (key b)) as [| Hle]; [done |].
    assert (Qle_bool (key b - key a) 0 = true) as E'
      by (apply Qle_bool_iff; lra).
    congruence.
Qed.

Lemma swaps_desc_false (a b : A) :
  swaps (desc key) a b = false <-> (key b <= key a)%Q.
Proof.
  rewrite <- not_true_iff_false, swaps_desc. split; lra.
Qed.

Lemma sort_insert_sorted (x : A) (l : list A) :
  StronglySorted (fun a b => (key b <= key a)%Q) l ->
  StronglySorted (fun a b => (key b <= key a)%Q) (sort_insert (desc key) x l).
Proof.
  induction 1 as [| y l Hs IH Hy]; simpl.
  - by repeat constructor.
  - destruct (swaps (desc key) x y) eqn:E.
    + apply swaps_desc in E. constructor; [done |].
      rewrite sort_insert_perm. constructor; [lra | done].
    + apply swaps_desc_false in E. constructor; [by constructor |].
      constructor; [done |].
      eapply Forall_impl; [exact Hy |]. simpl. intros z Hz. lra.
Qed.

Lemma Array_sort_sorted (l : list A) :
  StronglySorted (fun a b => (key b <= key a)%Q) (Array_sort (desc key) l).
Proof.
  induction l as [| x l IH]; simpl; [constructor |].
  by apply sort_insert_sorted.
Qed.

(** Stability: the entries of any one score keep their order. *)
Lemma sort_insert_stable (q : Q) (x : A) (l : list A) :
  filter (fun a => Qeq_bool (key a) q) (sort_insert (desc key) x l)
  = filter (fun a => Qeq_bool (key a) q) (x :: l).
Proof.
  induction l as [| y l IH]; simpl; [done |].
  destruct (swaps (desc key) x y) eqn:E; [| done].
  apply swaps_desc in E.
  rewrite (filter_cons _ y), IH, !filter_cons.
  repeat case_decide; try done.
  repeat match goal with
         | H : Is_true (Qeq_bool _ _) |- _ =>
             apply Is_true_eq_true, Qeq_bool_iff in H
         end.
  lra.
Qed.

Lemma Array_sort_stable (q : Q) (l : list A) :
  filter (fun a => Qeq_bool (key a) q) (Array_sort (desc key) l)
  = filter (fun a => Qeq_bool (key a) q) l.
Proof.
  induction l as [| x l IH]; simpl; [done |].
  by rewrite sort_insert_stable, !filter_cons, IH.
Qed.

(** Two stable descending arrangements of the same entries are equal:
    for such a comparator the result of [sort] does not depend on the
    sorting algorithm of the engine. *)
Lemma stable_sorted_unique (l1 l2 : list A) :
  l1 ≡ₚ l2 ->
  StronglySorted (fun a b => (key b <= key a)%Q) l1 ->
  StronglySorted (fun a b => (key b <= key a)%Q) l2 ->
  (forall q, filter (fun a => Qeq_bool (key a) q) l1
             = filter (fun a => Qeq_bool (key a) q) l2) ->
  l1 = l2.
Proof.
  revert l2. induction l1 as [| x l1 IH]; intros l2 Hperm Hs1 Hs2 Hf.
  - by apply Permutation_nil_l in Hperm.
  - destruct l2 as [| y l2]; [by apply Permutation_nil_r in Hperm |].
    apply StronglySorted_inv in Hs1 as [Hs1 Hx].
    apply StronglySorted_inv in Hs2 as [Hs2 Hy].
    rewrite Forall_forall in Hx, Hy.
    assert (key x <= key y)%Q as Hxy.
    { assert (x ∈ y :: l2) as Hin by (rewrite <- Hperm; left).
      apply elem_of_cons in Hin as [-> | Hin]; [lra | by apply Hy]. }
    assert (key y <= key x)%Q as Hyx.
    { assert (y ∈ x :: l1) as Hin by (rewrite Hperm; left).
      apply elem_of_cons in Hin as [-> | Hin]; [lra | by apply Hx]. }
    assert (Qeq_bool (key x) (key x) = true) as Exx
      by (apply Qeq_bool_iff; reflexivity).
    assert (Qeq_bool (key y) (key x) = true) as Eyx
      by (apply Qeq_bool_iff; lra).
    pose proof (Hf (key x)) as Hhead.
    rewrite !filter_cons, Exx, Eyx in Hhead. simpl in Hhead.
    injection Hhead as -> _.
    f_equal. apply IH; [by eapply Permutation_cons_inv | done | done |].
    intros q. specialize (Hf q). rewrite !filter_cons in Hf.
    case_decide; [by injection Hf | done].
Qed.

Lemma Array_sort_unique (l sorted : list A) :
  sorted ≡ₚ l ->
  StronglySorted (fun a b => (key b <= key a)%Q) sorted ->
  (forall q, filter (fun a => Qeq_bool (key a) q) sorted
             = filter (fun a => Qeq_bool (key a) q) l) ->
  sorted = Array_sort (desc key) l.
Proof.
  intros Hperm Hsorted Hstable. apply stable_sorted_unique.
  - by rewrite Array_sort_perm.
  - done.
  - apply Array_sort_sorted.
  - intros q. by rewrite Array_sort_stable.
Qed.

End SortDescending.

Section RankerClaims.
Import Main.

Lemma rank_length (probs : list Q) : length (rank probs) = length probs.
Proof. unfold rank, labelled. by rewrite Array_sort_length, length_imap. Qed.

Lemma rank_perm (probs : list Q) : rank probs ≡ₚ labelled probs.
Proof. apply Array_sort_perm. Qed.

Lemma rank_sorted (probs : list Q) :
  StronglySorted (fun a b => (probability b <= probability a)%Q) (rank probs).
Proof. apply (Array_sort_sorted probability). Qed.

Lemma labelled_indexed (probs : list Q) :
  labelled probs
  = (fun ip => {| genre := label_at ip.1; probability := ip.2 |})
      <$> indexed probs.
Proof. unfold labelled, indexed. by rewrite fmap_imap. Qed.

Lemma indexed_indices (probs : list Q) :
  (indexed probs).*1 = seq 0 (length probs).
Proof.
  unfold indexed. rewrite fmap_imap.
  transitivity (imap (fun j _ => j) probs); [by apply imap_ext |].
  rewrite (imap_seq_0 probs (fun j => j)). apply list_fmap_id.
Qed.

Lemma indexed_score (probs : list Q) (ip : nat * Q) :
  ip ∈ indexed probs -> nth ip.1 probs 0%Q = ip.2.
Proof.
  unfold indexed. rewrite elem_of_lookup_imap.
  intros (i & p & -> & Hi). simpl. by apply nth_lookup_Some.
Qed.

Lemma total_perm (l1 l2 : list Q) : l1 ≡ₚ l2 -> (total l1 == total l2)%Q.
Proof.
  induction 1 as [| x l1 l2 _ IH | x y l | l1 l2 l3 _ IH1 _ IH2]; simpl.
  - reflexivity.
  - by rewrite IH.
  - ring.
  - by rewrite IH1.
Qed.

Lemma labelled_scores (probs : list Q) :
  probability <$> labelled probs = probs.
Proof.
  unfold labelled. rewrite fmap_imap.
  transitivity (imap (const id) probs); [by apply imap_ext |].
  rewrite imap_const. apply list_fmap_id.
Qed.

Lemma filter_fmap_on {A B : Type} (f : B -> A) (P : A -> Prop) (P' : B -> Prop)
    `{!forall a, Decision (P a), !forall b, Decision (P' b)} (l : list B) :
  (forall b, b ∈ l -> P (f b) <-> P' b) ->
  filter P (f <$> l) = f <$> filter P' l.
Proof.
  induction l as [| b l IH]; intros Hiff; csimpl; [done |].
  rewrite !filter_cons, IH by (intros; apply Hiff; by right).
  pose proof (Hiff b (list_elem_of_here _ _)) as Hb.
  repeat case_decide; try done; tauto.
Qed.

(** The indices in ranking order. *)
Lemma rank_order (probs : list Q) :
  let order := (Array_sort (desc snd) (indexed probs)).*1 in
  order ≡ₚ seq 0 (length probs)
  /\ rank probs = entry probs <$> order
  /\ forall q,
       filter (fun i => Qeq_bool (nth i probs 0%Q) q) order
       = filter (fun i => Qeq_bool (nth i probs 0%Q) q) (seq 0 (length probs)).
Proof.
  cbv zeta.
  assert (forall ip, ip ∈ Array_sort (desc snd) (indexed probs) ->
                     nth ip.1 probs 0%Q = ip.2) as Hin.
  { intros ip. rewrite Array_sort_perm. apply indexed_score. }
  split; [| split].
  - by rewrite Array_sort_perm, indexed_indices.
  - unfold rank. rewrite labelled_indexed.
    rewrite (Array_sort_fmap _ (desc snd)) by done.
    rewrite <- list_fmap_compose.
    apply Forall_fmap_ext_1, Forall_forall. intros ip Hip.
    unfold entry; simpl. by rewrite (Hin ip Hip).
  - intros q.
    rewrite (filter_fmap_on fst _ (fun ip => Qeq_bool ip.2 q))
      by (intros ip Hip; by rewrite (Hin ip Hip)).
    rewrite (Array_sort_stable snd).
    rewrite <- indexed_indices. symmetry.
    apply filter_fmap_on. intros ip Hip.
    by rewrite (indexed_score probs ip Hip).
Qed.

(** C5.  For every probability vector the ranking has the length of the
    vector, is sorted by non-increasing score, lists the indices of any one
    score in increasing order (so equal scores keep the order of their label
    indices), and is a permutation of the labelled input pairs; the sum of
    the scores is unchanged. *)
Theorem rank_contract (probs : list Q) :
  length (rank probs) = length probs
  /\ StronglySorted (fun a b => (probability b <= probability a)%Q)
       (rank probs)
  /\ (exists order : list nat,
        order ≡ₚ seq 0 (length probs)
        /\ rank probs = entry probs <$> order
        /\ forall q,
             filter (fun i => Qeq_bool (nth i probs 0%Q) q) order
             = filter (fun i => Qeq_bool (nth i probs 0%Q) q)
                 (seq 0 (length probs)))
  /\ rank probs ≡ₚ labelled probs
  /\ (total (probability <$> rank probs) == total probs)%Q.
Proof.
  split; [apply rank_length |].
  split; [apply rank_sorted |].
  split; [eexists; apply rank_order |].
  split; [apply rank_perm |].
  rewrite <- (labelled_scores probs) at 2.
  apply total_perm. by rewrite rank_perm.
Qed.

(** The ranking of three scores with a tie: the tied labels keep the order
    of their indices. *)
Example rank_tie :
  rank [(1 # 4)%Q; (1 # 2)%Q; (1 # 4)%Q]
  = [ {| genre := "classical"; probability := (1 # 2)%Q |};
      {| genre := "blues"; probability := (1 # 4)%Q |};
      {| genre := "country"; probability := (1 # 4)%Q |} ].
Proof. reflexivity. Qed.

Lemma label_at_beyond (i : nat) :
  length GENRE_CLASSES <= i -> label_at i = "Unknown".
Proof.
  intros Hi. unfold label_at.
  by rewrite (proj2 (lookup_ge_None GENRE_CLASSES i)).
Qed.

(** C10.  When the probability vector is longer than the list of genres,
    every index past the list is labelled "Unknown", its entry is part of
    the ranking, the ranking still has one entry per score, and
    [displayResults] does not throw: it shows the top entry and the first
    five of the ranking, whichever labels they carry. *)
Theorem unknown_label_total (probs : list Q) (u : UI) :
  length GENRE_CLASSES < length probs ->
  (forall i p,
      length GENRE_CLASSES <= i -> probs !! i = Some p ->
      label_at i = "Unknown"
      /\ {| genre := "Unknown"; probability := p |} ∈ rank probs)
  /\ length (rank probs) = length probs
  /\ exists topGenre rest,
       rank probs = topGenre :: rest
       /\ displayResults probs u
          = inr (setLoading false ""
                   (drawChart
                      (map genre (top5 (rank probs)))
                      (map (fun r => probability r * 100)%Q
                           (top5 (rank probs)))
                      (set_predictedGenre (genre topGenre) u))).
Proof.
  intros Hlong. split; [| split; [apply rank_length |]].
  - intros i p Hi Hp. split; [by apply label_at_beyond |].
    rewrite rank_perm, <- (label_at_beyond i Hi).
    unfold labelled.
    by apply (elem_of_lookup_imap_2
                (fun i prob => {| genre := label_at i; probability := prob |})).
  - pose proof (rank_length probs) as Hlen.
    unfold displayResults.
    destruct (rank probs) as [| topGenre rest]; simpl in Hlen; [lia |].
    by exists topGenre, rest.
Qed.

Lemma unknown_label_total_witness :
  label_at 10 = "Unknown"
  /\ {| genre := "Unknown"; probability := (1 # 2)%Q |}
       ∈ rank Fixtures.elevenScores
  /\ length (rank Fixtures.elevenScores) = 11
  /\ exists u, displayResults Fixtures.elevenScores Fixtures.blankUI = inr u
               /\ predictedGenre u = "Unknown".
Proof.
  destruct (unknown_label_total Fixtures.elevenScores Fixtures.blankUI)
    as (Hlabel & Hlen & topGenre & rest & Hrank & Hshow);
    [vm_compute; lia |].
  destruct (Hlabel 10 (1 # 2)%Q) as [H10 Hin]; [vm_compute; lia | reflexivity |].
  split; [exact H10 |]. split; [exact Hin |]. split; [exact Hlen |].
  eexists. split; [exact Hshow |].
  vm_compute in Hrank. injection Hrank as <- _. reflexivity.
Defined.

End RankerClaims.

(** ** Spectrogram Extractor *)

Section ExtractorFacts.
Import Worker SpecModel.

Lemma frames_short (frameSize hopSize : nat) (signal : list Q) :
  length signal < frameSize -> frames frameSize hopSize signal = [].
Proof.
  intros Hshort. rewrite frames_equation_1.
  destruct (decide (0 < frameSize <= length signal /\ 0 < hopSize))
    as [Hyes | Hno]; [lia | done].
Qed.

Lemma frames_step (frameSize hopSize : nat) (signal : list Q) :
  0 < frameSize <= length signal -> 0 < hopSize ->
  frames frameSize hopSize signal
  = take frameSize signal :: frames frameSize hopSize (drop hopSize signal).
Proof.
  intros Hfs Hhop. rewrite frames_equation_1.
  destruct (decide (0 < frameSize <= length signal /\ 0 < hopSize))
    as [Hyes | Hno]; [done | destruct Hno; by split].
Qed.

(** Number of frames: [floor((len - frameSize) / hopSize) + 1] once the
    signal holds a frame. *)
Lemma frames_length (frameSize hopSize : nat) (signal : list Q) :
  0 < frameSize <= length signal -> 0 < hopSize ->
  length (frames frameSize hopSize signal)
  = (length signal - frameSize) / hopSize + 1.
Proof.
  intros Hfs Hhop.
  remember (length signal) as n eqn:Hn.
  revert signal Hn Hfs.
  induction n as [n IH] using lt_wf_ind. intros signal Hn Hfs. subst n.
  rewrite frames_step by done. simpl.
  destruct (decide (length (drop hopSize signal) < frameSize)) as [Hlast | Hmore].
  - rewrite frames_short by done. rewrite length_drop in Hlast.
    rewrite Nat.div_small by lia. done.
  - rewrite length_drop in Hmore.
    rewrite (IH (length (drop hopSize signal))) with (signal := drop hopSize signal);
      rewrite ?length_drop; try lia.
    replace (length signal - frameSize)
      with ((length signal - hopSize - frameSize) + 1 * hopSize) by lia.
    rewrite Nat.div_add by lia. lia.
Qed.

Lemma padOrTruncate_empty (numFrames numMels : nat) :
  padOrTruncate [] numFrames numMels
  = replicate numFrames (replicate numMels PAD_VALUE).
Proof.
  destruct numFrames as [| n]; [done |].
  rewrite padOrTruncate_pads by (simpl; lia). done.
Qed.

(** A signal shorter than a frame: the worker answers with padding only. *)
Lemma process_short_clip resample melBands log10 audioData sampleRate targetSr
    numMels numFrames (signal : list Q) :
  resample_step (specEssentia resample melBands) audioData sampleRate targetSr
  = inr signal ->
  length signal < 2048 ->
  process (Some (specEssentia resample melBands)) log10
    audioData sampleRate targetSr numMels numFrames
  = Result (replicate numFrames (replicate numMels PAD_VALUE)).
Proof.
  intros Hres Hshort. unfold process, process_body. rewrite Hres.
  cbn [tbind MelSpectrogram specEssentia].
  rewrite frames_short by done. cbn [map].
  by rewrite padOrTruncate_empty.
Qed.

End ExtractorFacts.

(** ** Log compression *)

Section LogCompression.
Import Worker.

(** What the floor of the log compression rests on: on an engine whose
    [Math.log10] maps the double [1e-6] to [-6], a band of energy [0] is
    compressed to the padding value.  Whether an engine does so is a fact
    about its floating-point [Math.log10], outside this development. *)
Lemma logFrame_floor (log10 : Q -> Q) :
  log10 EPSILON = (-6)%Q -> logFrame log10 [0%Q] = [PAD_VALUE].
Proof.
  intros Hlog. unfold logFrame. cbn [map].
  change (0 + EPSILON)%Q with EPSILON. rewrite Hlog. reflexivity.
Qed.

End LogCompression.

(** ** Inference Engine *)

Section InferenceFacts.
Import Worker Main.

(** [predict] throws: the two tensors made for the call stay registered. *)
Lemma runInference_predict_throws st m features t t' e :
  model st = Some m ->
  tensor_of_array features = inr t ->
  reshape_to [1; MODEL_INPUT_NUM_FRAMES; MODEL_INPUT_NUM_MELS; 1] t = inr t' ->
  predict m t' = inl e ->
  runInference features st
  = with_ui (setLoading false "Inference failed.")
      (console_error ("Error during inference: " +:+ e)
         (snd (register t' (inr (values t'))
            (snd (register t (inr (values t))
               (with_ui (setLoading true "Classifying...") st)))))).
Proof.
  intros Hm Ht Ht' Hp. unfold runInference. rewrite Hm.
  unfold runInference_try, tf_tensor, tf_reshape, model_predict,
    mbind, lift_throws, new_tensor. simpl.
  rewrite Ht. simpl. rewrite Ht'. simpl. rewrite Hp. reflexivity.
Qed.

(** [await prediction.data()] rejects: the prediction is disposed in the
    [catch] block, the two input-side tensors stay registered. *)
Lemma runInference_data_rejects st m features t t' out e :
  model st = Some m ->
  tensor_of_array features = inr t ->
  reshape_to [1; MODEL_INPUT_NUM_FRAMES; MODEL_INPUT_NUM_MELS; 1] t = inr t' ->
  predict m t' = inr (out, inl e) ->
  let st1 := snd (register t' (inr (values t'))
               (snd (register t (inr (values t))
                  (with_ui (setLoading true "Classifying...") st)))) in
  runInference features st
  = dispose (fst (register out (inl e) st1))
      (with_ui (setLoading false "Inference failed.")
         (console_error ("Error during inference: " +:+ e)
            (snd (register out (inl e) st1)))).
Proof.
  intros Hm Ht Ht' Hp. unfold runInference. rewrite Hm.
  unfold runInference_try, tf_tensor, tf_reshape, model_predict,
    mbind, lift_throws, new_tensor. simpl.
  rewrite Ht. simpl. rewrite Ht'. simpl. rewrite Hp. reflexivity.
Qed.

(** In both cases the input tensor, the second tensor registered by the
    call, is still registered when [runInference] returns. *)
Lemma runInference_exception_keeps_input st m features t t' :
  model st = Some m ->
  tensor_of_array features = inr t ->
  reshape_to [1; MODEL_INPUT_NUM_FRAMES; MODEL_INPUT_NUM_MELS; 1] t = inr t' ->
  (exists e, predict m t' = inl e)
  \/ (exists out e, predict m t' = inr (out, inl e)) ->
  S (fresh st) ∈ live (runInference features st).
Proof.
  intros Hm Ht Ht' [[e Hp] | (out & e & Hp)].
  - rewrite (runInference_predict_throws st m features t t' e) by done.
    cbn [live fresh with_ui console_error register snd].
    apply elem_of_union_l. by apply elem_of_singleton_2.
  - rewrite (runInference_data_rejects st m features t t' out e) by done.
    cbn [live fresh with_ui console_error register dispose fst snd tid].
    apply elem_of_difference. split.
    + apply elem_of_union_r, elem_of_union_l. by apply elem_of_singleton_2.
    + rewrite not_elem_of_singleton. lia.
Qed.

Lemma displayResults_nonempty (probs : list Q) (u : UI) topGenre rest :
  rank probs = topGenre :: rest ->
  displayResults probs u
  = inr (setLoading false ""
           (drawChart (map genre (top5 (rank probs)))
              (map (fun r => probability r * 100)%Q (top5 (rank probs)))
              (set_predictedGenre (genre topGenre) u))).
Proof. intros Hrank. unfold displayResults. by rewrite Hrank. Qed.

(** No exception: the top genre and the chart are shown, nothing is
    logged, and of the tensors made only the one [tf.tensor] returned
    stays registered. *)
Lemma runInference_success st m features t t' out probs topGenre rest :
  model st = Some m ->
  tensor_of_array features = inr t ->
  reshape_to [1; MODEL_INPUT_NUM_FRAMES; MODEL_INPUT_NUM_MELS; 1] t = inr t' ->
  predict m t' = inr (out, inr probs) ->
  rank probs = topGenre :: rest ->
  let st' := runInference features st in
  errors st' = errors st
  /\ posted st' = posted st
  /\ ui st'
     = setLoading false ""
         (drawChart (map genre (top5 (rank probs)))
            (map (fun r => probability r * 100)%Q (top5 (rank probs)))
            (set_predictedGenre (genre topGenre)
               (setLoading true "Classifying..." (ui st)))).
Proof.
  intros Hm Ht Ht' Hp Hrank. cbv zeta. unfold runInference. rewrite Hm.
  unfold runInference_try, tf_tensor, tf_reshape, model_predict, tensor_data,
    assign_prediction, on_app, ui_throws, mbind, lift_throws, new_tensor.
  cbn [app prediction register fst snd tensor data].
  rewrite Ht. cbn [app prediction register fst snd tensor data values].
  rewrite Ht'. cbn [app prediction register fst snd tensor data values].
  rewrite Hp. cbn [app prediction register fst snd tensor data values].
  cbn [ui dispose with_ui].
  rewrite (displayResults_nonempty _ _ _ _ Hrank).
  cbn [app ui errors posted with_ui dispose]. done.
Qed.



End InferenceFacts.

Section InferenceClaims.
Import Worker Main Fixtures.

(** C2, at a failing input.  A 96 x 64 grid and a classifier whose
    [predict] throws: when [runInference] returns, the input tensor
    (identity 1) is still registered.  The same when reading the
    prediction back fails, although the prediction (identity 2) is
    disposed there; on the path without exception both are disposed. *)
Theorem runInference_leaks_input_tensor :
  live (readyApp throwingModel) = ∅
  /\ (1 ∈ live (runInference silenceGrid (readyApp throwingModel)))
  /\ statusMessage (ui (runInference silenceGrid (readyApp throwingModel)))
     = "Inference failed."
  /\ (1 ∈ live (runInference silenceGrid (readyApp unreadableModel)))
  /\ (2 ∉ live (runInference silenceGrid (readyApp unreadableModel)))
  /\ (1 ∉ live (runInference silenceGrid (readyApp workingModel)))
  /\ (2 ∉ live (runInference silenceGrid (readyApp workingModel))).
Proof.
  split; [reflexivity |].
  split; [vm_compute; reflexivity |].
  split; [vm_compute; reflexivity |].
  split; [vm_compute; reflexivity |].
  repeat split; vm_compute; intros Hin; discriminate Hin.
Qed.

End InferenceClaims.

(** ** Pipeline Orchestrator *)

Section OrchestratorClaims.
Import Worker Main Plot Fixtures Props.

Lemma setLoading_false_after_true (msg msg' : string) (u : UI) :
  msg' <> "" ->
  setLoading false msg' (setLoading true msg u) = shown_with msg' u.
Proof.
  intros Hmsg. unfold setLoading, shown_with, updateStatus, or_default; simpl.
  by case_decide.
Qed.


(** With a chart call that returns, the two embeddings of [runInference]
    agree. *)
Lemma runInference_plot_drawn (features : grid) (st : App) :
  runInference_plot (fun _ _ => Drawn) features st = runInference features st.
Proof.
  unfold runInference_plot, runInference.
  destruct (model st) as [m |]; [| done].
  unfold runInference_try_plot, runInference_try, tf_tensor, tf_reshape,
    model_predict, tensor_data, assign_prediction, on_app, ui_run, ui_throws,
    mbind, lift_throws, new_tensor.
  cbn [app prediction register fst snd tensor data values ui with_ui dispose].
  destruct (tensor_of_array features) as [? | t]; [done |].
  cbn [app prediction register fst snd tensor data values ui with_ui dispose].
  destruct (reshape_to _ t) as [? | t']; [done |].
  cbn [app prediction register fst snd tensor data values ui with_ui dispose].
  destruct (predict m t') as [? | [out [? | probabilities]]]; [done | done |].
  cbn [app prediction register fst snd tensor data values ui with_ui dispose].
  unfold displayResults_plot, displayResults.
  by destruct (rank probabilities).
Qed.




(** A load that resolves stores the classifier, also when the warm-up
    prediction throws; the clip and the worker's queue are untouched. *)
Lemma loadModel_resolves (m : GraphModel) (st : App) :
  model (loadModel (inr m) st) = Some m
  /\ currentAudioBuffer (loadModel (inr m) st) = currentAudioBuffer st
  /\ posted (loadModel (inr m) st) = posted st.
Proof.
  unfold loadModel, register.
  by destruct (predict m _) as [? | [? ?]].
Qed.

(** C8.  When classify is invoked while no classifier is loaded,
    [handleClassify] only writes the status "Error: Audio or model not
    ready.": no loading state is entered, nothing is posted to the worker,
    no tensor is made and the state is otherwise untouched.  A result
    message that reaches [runInference] without a classifier is refused the
    same way, without touching a tensor or the worker.  Once a later load
    succeeds, the classifier is stored and the next classify enters the
    loading state and posts the 'process' request. *)
Theorem classify_without_model (st : App) :
  model st = None ->
  handleClassify st
  = with_ui (updateStatus "Error: Audio or model not ready.") st
  /\ posted (handleClassify st) = posted st
  /\ loader_hidden (ui (handleClassify st)) = loader_hidden (ui st)
  /\ resultsSection_hidden (ui (handleClassify st))
     = resultsSection_hidden (ui st)
  /\ classifyBtn_disabled (ui (handleClassify st))
     = classifyBtn_disabled (ui st)
  /\ (forall features,
        let st' := runInference features st in
        statusMessage (ui st') = "Error: Model not loaded."
        /\ loader_hidden (ui st') = true
        /\ posted st' = posted st /\ live st' = live st /\ model st' = None)
  /\ (forall m buf,
        currentAudioBuffer st = Some buf ->
        let st' := loadModel (inr m) (handleClassify st) in
        model st' = Some m
        /\ posted (handleClassify st')
           = posted st ++ [Process (channelData0 buf) (sampleRate buf)
                             MODEL_EXPECTED_SAMPLE_RATE
                             MODEL_INPUT_NUM_MELS MODEL_INPUT_NUM_FRAMES]
        /\ loader_hidden (ui (handleClassify st')) = false
        /\ statusMessage (ui (handleClassify st')) = "Extracting features...").
Proof.
  intros Hm.
  assert (handleClassify st
          = with_ui (updateStatus "Error: Audio or model not ready.") st)
    as Hh.
  { unfold handleClassify. rewrite Hm. by destruct (currentAudioBuffer st). }
  split; [exact Hh |]. rewrite Hh.
  repeat (split; [reflexivity |]).
  split.
  - intros features. unfold runInference. rewrite Hm. by cbv zeta.
  - intros m buf Hbuf. cbv zeta.
    destruct (loadModel_resolves m
                (with_ui (updateStatus "Error: Audio or model not ready.") st))
      as (Hm' & Hb' & Hp').
    cbn [currentAudioBuffer posted with_ui] in Hb', Hp'. rewrite Hbuf in Hb'.
    set (st2 := loadModel _ _) in *.
    split; [exact Hm' |].
    unfold handleClassify. rewrite Hb', Hm'.
    cbn [posted postMessage with_ui ui]. by rewrite Hp'.
Qed.

Lemma classify_without_model_witness :
  let st := with_model None (readyApp workingModel) in
  posted (handleClassify st) = posted st
  /\ statusMessage (ui (handleClassify st))
     = "Error: Audio or model not ready."
  /\ loader_hidden (ui (handleClassify st)) = true
  /\ model (loadModel (inr workingModel) (handleClassify st))
     = Some workingModel
  /\ length (posted (handleClassify
                       (loadModel (inr workingModel) (handleClassify st))))
     = 2.
Proof.
  cbv zeta.
  destruct (classify_without_model (with_model None (readyApp workingModel))
              eq_refl) as (Hh & Hp & Hl & _ & _ & _ & Hlater).
  destruct (Hlater workingModel clip eq_refl) as (Hm & Hposted & _ & _).
  split; [exact Hp |].
  split; [rewrite Hh; reflexivity |].
  split; [rewrite Hl; reflexivity |].
  split; [exact Hm |].
  rewrite Hposted. reflexivity.
Defined.

End OrchestratorClaims.

(** ** Spectrogram Extractor and the short clip *)

Section ExtractorClaims.
Import Worker SpecModel Main Fixtures.

Lemma handleClassify_ready (st : App) buf m :
  currentAudioBuffer st = Some buf -> model st = Some m ->
  handleClassify st
  = postMessage (Process (channelData0 buf) (sampleRate buf)
                   MODEL_EXPECTED_SAMPLE_RATE
                   MODEL_INPUT_NUM_MELS MODEL_INPUT_NUM_FRAMES)
      (with_ui (setLoading true "Extracting features...") st).
Proof. intros Hbuf Hm. unfold handleClassify. by rewrite Hbuf, Hm. Qed.

Lemma silence_tensor :
  tensor_of_array silenceGrid
  = inr {| shape := [96; 64]; values := concat silenceGrid |}
  /\ reshape_to [1; MODEL_INPUT_NUM_FRAMES; MODEL_INPUT_NUM_MELS; 1]
       {| shape := [96; 64]; values := concat silenceGrid |}
     = inr silenceTensor.
Proof. split; vm_compute; reflexivity. Qed.

(** C9.  With the framing of the design document (frames of 2048 samples
    every 1024 samples) behind [essentia.MelSpectrogram], the worker's
    extraction steps turn a resampled signal of [len] samples into a grid of
    [floor((len - 2048) / 1024) + 1] log-compressed frames when
    [len >= 2048] and into an empty grid when the signal is shorter than one
    frame; what the worker posts is that grid padded or truncated to
    [numFrames], and the grid itself when [numFrames] is its frame count.
    For the short signal the worker answers with 96 padding frames and the
    classification on the main thread completes: nothing is logged as an
    error, and the top genre of the classifier's scores is shown. *)
Theorem extractor_frame_count resample melBands (signal : list Q) :
  let es := specEssentia resample melBands in
  (forall log10 audioData sampleRate targetSr numMels numFrames,
      resample_step es audioData sampleRate targetSr = inr signal ->
      let melSpecGrid :=
        map (map (fun val => 10 * log10 (val + (1 # 1000000)))%Q)
            (map (melBands numMels targetSr "triangle" "unit_area" 0%Q
                    (inject_Z targetSr / 2)%Q (1 # 2)%Q)
                 (frames 2048 1024 signal)) in
      process (Some es) log10 audioData sampleRate targetSr numMels numFrames
      = Result (padOrTruncate melSpecGrid numFrames numMels)
      /\ (2048 <= length signal ->
          Z.of_nat (length melSpecGrid)
          = ((Z.of_nat (length signal) - 2048) / 1024 + 1)%Z)
      /\ (length signal < 2048 -> melSpecGrid = [])
      /\ (numFrames = length melSpecGrid ->
          process (Some es) log10 audioData sampleRate targetSr
            numMels numFrames
          = Result melSpecGrid))
  /\ (length signal < 2048 ->
      forall log10 st buf m out probs,
        currentAudioBuffer st = Some buf ->
        model st = Some m ->
        resample_step es (channelData0 buf) (sampleRate buf)
          MODEL_EXPECTED_SAMPLE_RATE = inr signal ->
        predict m silenceTensor = inr (out, inr probs) ->
        probs <> [] ->
        let st' := classify (Some es) log10 st in
        worker_answer (Some es) log10 (handleClassify st)
        = Some (Result silenceGrid)
        /\ errors st' = errors st
        /\ statusMessage (ui st') = "Classification complete."
        /\ loader_hidden (ui st') = true
        /\ resultsContent_hidden (ui st') = false
        /\ exists topGenre,
             head (rank probs) = Some topGenre
             /\ predictedGenre (ui st') = genre topGenre).
Proof.
  cbv zeta. split.
  - intros log10 audioData sampleRate targetSr numMels numFrames Hres.
    assert (process (Some (specEssentia resample melBands)) log10
              audioData sampleRate targetSr numMels numFrames
            = Result (padOrTruncate
                        (map (map (fun val =>
                                     10 * log10 (val + (1 # 1000000)))%Q)
                           (map (melBands numMels targetSr "triangle"
                                   "unit_area" 0%Q
                                   (inject_Z targetSr / 2)%Q (1 # 2)%Q)
                              (frames 2048 1024 signal)))
                        numFrames numMels)) as Hprocess.
    { unfold process, process_body. rewrite Hres.
      cbn [tbind MelSpectrogram specEssentia]. reflexivity. }
    split; [exact Hprocess |]. split; [| split].
    + intros Hlong. rewrite !length_map, frames_length by lia.
      rewrite Nat2Z.inj_add, Nat2Z.inj_div, Nat2Z.inj_sub by lia. done.
    + intros Hshort. by rewrite frames_short.
    + intros ->. rewrite Hprocess. by rewrite padOrTruncate_same.
  - intros Hshort log10 st buf m out probs Hbuf Hm Hres Hp Hprobs.
    assert (worker_answer (Some (specEssentia resample melBands)) log10
              (handleClassify st) = Some (Result silenceGrid)) as Hanswer.
    { rewrite (handleClassify_ready st buf m) by done.
      unfold worker_answer. cbn [posted postMessage with_ui].
      rewrite last_snoc.
      by rewrite (process_short_clip _ _ _ _ _ _ _ _ signal). }
    split; [exact Hanswer |].
    unfold classify. rewrite Hanswer.
    rewrite (handleClassify_ready st buf m) by done.
    cbn [posted postMessage with_ui]. rewrite length_app.
    rewrite decide_True by (simpl; lia).
    cbn [essentiaWorker_onmessage].
    destruct (rank probs) as [| topGenre rest] eqn:Hrank.
    { pose proof (rank_length probs) as Hlen. rewrite Hrank in Hlen.
      destruct probs; [done | discriminate Hlen]. }
    destruct silence_tensor as [Ht Ht'].
    destruct (runInference_success
                (postMessage (Process (channelData0 buf) (sampleRate buf)
                                MODEL_EXPECTED_SAMPLE_RATE
                                MODEL_INPUT_NUM_MELS MODEL_INPUT_NUM_FRAMES)
                   (with_ui (setLoading true "Extracting features...") st))
                m silenceGrid _ _ out probs topGenre rest Hm Ht Ht' Hp Hrank)
      as (Herr & _ & Hui).
    rewrite Herr, Hui. repeat (split; [reflexivity |]).
    exists topGenre. by split.
Qed.

Lemma extractor_frame_count_witness :
  let es := specEssentia noResample zeroBands in
  (exists melSpecGrid,
      process (Some es) stubLog10 longSignal 22050 22050 64 3
      = Result melSpecGrid
      /\ length melSpecGrid = 3
      /\ melSpecGrid = replicate 3 (replicate 64 (-60)%Q))
  /\ process (Some es) stubLog10 (channelData0 clip) 22050 22050 64 96
     = Result silenceGrid
  /\ (let st' := classify (Some es) stubLog10 (readyApp workingModel) in
      errors st' = []
      /\ statusMessage (ui st') = "Classification complete."
      /\ predictedGenre (ui st') = "rock").
Proof.
  cbv zeta.
  destruct (extractor_frame_count noResample zeroBands longSignal)
    as [Hgrid _].
  destruct (Hgrid stubLog10 longSignal 22050%Z 22050%Z 64 3 eq_refl)
    as (_ & Hlong & _ & Hexact).
  assert (2048 <= length longSignal) as H5000 by (vm_compute; lia).
  specialize (Hlong H5000).
  assert (((Z.of_nat (length longSignal) - 2048) / 1024 + 1)%Z = 3%Z) as H3
    by (vm_compute; reflexivity).
  rewrite H3 in Hlong. apply (Nat2Z.inj _ 3) in Hlong.
  destruct (extractor_frame_count noResample zeroBands (channelData0 clip))
    as [Hgrid' Hshort].
  assert (length (channelData0 clip) < 2048) as Hclip by (vm_compute; lia).
  destruct (Hgrid' stubLog10 (channelData0 clip) 22050%Z 22050%Z 64 96
              eq_refl) as (Hprocess & _ & Hnone & _).
  rewrite (Hnone Hclip) in Hprocess.
  destruct (Hshort Hclip stubLog10 (readyApp workingModel)
              clip workingModel outTensor tenScores
              eq_refl eq_refl eq_refl eq_refl ltac:(discriminate))
    as (_ & Herr & Hstatus & _ & _ & topGenre & Htop & Hgenre).
  split.
  { eexists. split; [apply Hexact; by symmetry |].
    split; [exact Hlong | vm_compute; reflexivity]. }
  split; [rewrite Hprocess; vm_compute; reflexivity |].
  split; [exact Herr |]. split; [exact Hstatus |].
  rewrite Hgenre. vm_compute in Htop. by injection Htop as <-.
Defined.

End ExtractorClaims.

(** ** Further properties of the worker script *)

Section WorkerProperties.
Import Worker Main Invariants.

Lemma process_result_inv essentia log10 audioData sampleRate targetSr
    numMels numFrames features :
  process essentia log10 audioData sampleRate targetSr numMels numFrames
  = Result features ->
  exists es signal melbands,
    essentia = Some es
    /\ resample_step es audioData sampleRate targetSr = inr signal
    /\ MelSpectrogram es signal targetSr 2048 1024 numMels
         "triangle" "unit_area" 0%Q (inject_Z targetSr / 2)%Q (1 # 2)%Q
       = inr melbands
    /\ features
       = padOrTruncate (map (logFrame log10) melbands) numFrames numMels.
Proof.
  unfold process, process_body.
  destruct essentia as [es |]; [| discriminate].
  destruct (resample_step es audioData sampleRate targetSr)
    as [e | signal] eqn:Hres; [discriminate |].
  cbn [tbind].
  destruct (MelSpectrogram es signal targetSr 2048 1024 numMels _ _ _ _ _)
    as [e | melbands] eqn:Hmel; [discriminate |].
  cbn [tbind]. intros [= <-]. by exists es, signal, melbands.
Qed.

Lemma padOrTruncate_rectangular (g : grid) (numFrames numMels : nat) :
  rectangular numMels g ->
  rectangular numMels (padOrTruncate g numFrames numMels).
Proof.
  unfold rectangular, padOrTruncate. intros Hg. repeat case_decide.
  - by apply Forall_take.
  - rewrite pad_loop_spec. apply Forall_app. split; [done |].
    apply Forall_replicate. apply length_replicate.
  - done.
Qed.

Lemma logFrame_rectangular log10 (numMels : nat) (g : grid) :
  rectangular numMels g -> rectangular numMels (map (logFrame log10) g).
Proof.
  unfold rectangular. intros Hg. apply Forall_map.
  eapply Forall_impl; [exact Hg |]. intros fr Hfr. simpl.
  unfold logFrame. by rewrite length_map.
Qed.

(** X1.  When the worker answers a 'process' request with features, the
    grid has exactly [numFrames] frames; its leading frames are the
    log-compressed frames Essentia returned, earliest first; and when
    Essentia's frames all have [numMels] bands, so has every frame of the
    answer. *)
Theorem process_result_shape essentia log10 audioData sampleRate targetSr
    numMels numFrames features :
  process essentia log10 audioData sampleRate targetSr numMels numFrames
  = Result features ->
  length features = numFrames
  /\ exists es signal melbands,
       essentia = Some es
       /\ resample_step es audioData sampleRate targetSr = inr signal
       /\ MelSpectrogram es signal targetSr 2048 1024 numMels
            "triangle" "unit_area" 0%Q (inject_Z targetSr / 2)%Q (1 # 2)%Q
          = inr melbands
       /\ take (length melbands) features
          = take numFrames (map (logFrame log10) melbands)
       /\ (rectangular numMels melbands -> rectangular numMels features).
Proof.
  intros Hres.
  destruct (process_result_inv _ _ _ _ _ _ _ _ Hres)
    as (es & signal & melbands & -> & Hsig & Hmel & ->).
  split; [apply padOrTruncate_length |].
  exists es, signal, melbands. repeat (split; [done |]). split.
  - destruct (decide (numFrames <= length melbands)) as [Hle | Hgt].
    + rewrite padOrTruncate_truncates by (by rewrite length_map).
      rewrite take_take. f_equal. lia.
    + rewrite padOrTruncate_pads by (rewrite length_map; lia).
      rewrite <- (length_map (logFrame log10) melbands) at 1.
      rewrite take_app_length.
      by rewrite take_ge by (rewrite length_map; lia).
  - intros Hrect. by apply padOrTruncate_rectangular, logFrame_rectangular.
Qed.

Lemma process_result_shape_witness :
  exists features,
    process (Some Fixtures.stubEssentia) Fixtures.stubLog10
      [1%Q; 2%Q] 44100 22050 2 3 = Result features
    /\ length features = 3.
Proof.
  eexists. split; [reflexivity |].
  apply (process_result_shape (Some Fixtures.stubEssentia) Fixtures.stubLog10
           [1%Q; 2%Q] 44100%Z 22050%Z 2 3).
  reflexivity.
Defined.

(** X2.  The worker answers a 'process' request with an error exactly
    when [essentia] is still undefined, or [Resample] throws (it is only
    called for different rates), or [MelSpectrogram] throws; the message is
    the exception's. *)
Theorem process_error_iff essentia log10 audioData sampleRate targetSr
    numMels numFrames message :
  process essentia log10 audioData sampleRate targetSr numMels numFrames
  = Error message
  <-> (essentia = None /\ message = ESSENTIA_UNDEFINED)
      \/ (exists es,
            essentia = Some es
            /\ ((sampleRate <> targetSr
                 /\ Resample es audioData sampleRate targetSr = inl message)
                \/ exists signal,
                     resample_step es audioData sampleRate targetSr
                     = inr signal
                     /\ MelSpectrogram es signal targetSr 2048 1024 numMels
                          "triangle" "unit_area" 0%Q
                          (inject_Z targetSr / 2)%Q (1 # 2)%Q
                        = inl message)).
Proof.
  unfold process, process_body. split.
  - destruct essentia as [es |]; [| intros [= <-]; by left].
    intros Herr. right. exists es. split; [done |].
    destruct (resample_step es audioData sampleRate targetSr)
      as [e | signal] eqn:Hres; cbn [tbind] in Herr.
    + left. injection Herr as ->. unfold resample_step in Hres.
      case_decide; [done | discriminate].
    + right. exists signal. split; [done |].
      destruct (MelSpectrogram es signal targetSr 2048 1024 numMels _ _ _ _ _)
        as [e | melbands]; cbn [tbind] in Herr; [by injection Herr as -> |].
      discriminate.
  - intros [[-> ->] | (es & -> & [[Hne Hres] | (signal & Hres & Hmel)])].
    + done.
    + unfold resample_step. rewrite decide_True by done. by rewrite Hres.
    + rewrite Hres. cbn [tbind]. by rewrite Hmel.
Qed.

(** X3.  [padOrTruncate] is idempotent, whatever band count the second
    call is given, and it returns its input unchanged exactly when the input
    already has [numFrames] frames. *)
Theorem padOrTruncate_idempotent (g : grid) (numFrames numMels numMels' : nat) :
  padOrTruncate (padOrTruncate g numFrames numMels) numFrames numMels'
  = padOrTruncate g numFrames numMels
  /\ (padOrTruncate g numFrames numMels = g <-> length g = numFrames).
Proof.
  split.
  - rewrite <- (padOrTruncate_length g numFrames numMels) at 2.
    apply padOrTruncate_same.
  - split.
    + intros Heq. rewrite <- Heq at 1. apply padOrTruncate_length.
    + intros <-. apply padOrTruncate_same.
Qed.

End WorkerProperties.

(** ** Further properties of the ranking and the chart *)

Section RankingProperties.
Import Worker Main Invariants.

Lemma seq_sorted (j n : nat) : StronglySorted lt (seq j n).
Proof.
  revert j. induction n as [| n IH]; intros j; simpl; constructor; [done |].
  apply Forall_forall. intros k Hk. apply elem_of_seq in Hk. lia.
Qed.

(** In an increasing list, the first element a filter keeps is below
    every other element it keeps. *)
Lemma filter_head_least (P : nat -> Prop) `{!forall i, Decision (P i)}
    (l : list nat) (x : nat) (l' : list nat) :
  StronglySorted lt l -> filter P l = x :: l' ->
  forall y, y ∈ l -> P y -> x <= y.
Proof.
  induction 1 as [| a l Hs IH Ha]; [done |].
  rewrite filter_cons. intros Hf y Hy HPy.
  apply elem_of_cons in Hy as [-> | Hy].
  - rewrite decide_True in Hf by done. injection Hf as -> _. done.
  - case_decide.
    + injection Hf as -> _. rewrite Forall_forall in Ha.
      specialize (Ha y Hy). lia.
    + by apply IH.
Qed.

(** X4.  The predicted genre is the label of the first index that holds
    the largest score: every score is at most its score, and every earlier
    index has a strictly smaller one. *)
Theorem predicted_genre_is_first_maximum (probs : list Q) :
  probs <> [] ->
  exists i,
    head (rank probs) = Some (entry probs i)
    /\ i < length probs
    /\ (forall j, j < length probs -> (nth j probs 0 <= nth i probs 0)%Q)
    /\ (forall j, j < i -> (nth j probs 0 < nth i probs 0)%Q).
Proof.
  intros Hne.
  destruct (rank_order probs) as (Hperm & Hrank & Hstable).
  set (order := (Array_sort (desc snd) (indexed probs)).*1) in *.
  destruct order as [| i rest] eqn:Horder.
  { apply Permutation_nil_l in Hperm. destruct probs; [done | discriminate]. }
  assert (forall j, j < length probs -> j ∈ i :: rest) as Hall.
  { intros j Hj. rewrite Hperm. apply elem_of_seq. lia. }
  assert (i < length probs) as Hi.
  { assert (i ∈ seq 0 (length probs)) as Hin by (rewrite <- Hperm; left).
    apply elem_of_seq in Hin. lia. }
  assert (forall j, j < length probs -> (nth j probs 0 <= nth i probs 0)%Q)
    as Hmax.
  { intros j Hj. pose proof (rank_sorted probs) as Hsorted.
    rewrite Hrank in Hsorted. csimpl in Hsorted.
    apply StronglySorted_inv in Hsorted as [_ Hhead].
    rewrite Forall_forall in Hhead.
    apply Hall, elem_of_cons in Hj as [-> | Hj]; [lra |].
    apply (Hhead (entry probs j)). by apply list_elem_of_fmap_2. }
  exists i. split; [by rewrite Hrank |]. split; [done |]. split; [done |].
  intros j Hj.
  destruct (Qlt_le_dec (nth j probs 0%Q) (nth i probs 0%Q)) as [| Hge];
    [done |].
  exfalso.
  pose proof (Hstable (nth i probs 0%Q)) as Hf.
  rewrite filter_cons in Hf.
  rewrite decide_True in Hf
    by (apply Is_true_true, Qeq_bool_iff; reflexivity).
  symmetry in Hf.
  pose proof (filter_head_least _ _ _ _ (seq_sorted 0 (length probs)) Hf j)
    as Hleast.
  assert (i <= j); [| lia].
  apply Hleast; [apply elem_of_seq; lia |].
  apply Is_true_true, Qeq_bool_iff.
  specialize (Hmax j ltac:(lia)). lra.
Qed.

Lemma predicted_genre_is_first_maximum_witness :
  let probs := [(1 # 4)%Q; (1 # 2)%Q; (1 # 2)%Q] in
  probs <> []
  /\ exists i,
       head (rank probs) = Some (entry probs i)
       /\ i < length probs
       /\ (forall j, j < length probs -> (nth j probs 0 <= nth i probs 0)%Q)
       /\ (forall j, j < i -> (nth j probs 0 < nth i probs 0)%Q).
Proof.
  cbv zeta. split; [discriminate |].
  apply (predicted_genre_is_first_maximum [(1 # 4)%Q; (1 # 2)%Q; (1 # 2)%Q]).
  discriminate.
Defined.

Lemma rank_nonempty (probs : list Q) :
  probs <> [] -> exists topGenre rest, rank probs = topGenre :: rest.
Proof.
  intros Hne. pose proof (rank_length probs) as Hlen.
  destruct (rank probs) as [| topGenre rest]; [| by eauto].
  destruct probs; [done | discriminate Hlen].
Qed.

(** X5.  For a non-empty probability vector [displayResults] does not
    throw; it draws one bar per entry up to five, labels and values in
    ranking order, the values being the scores times 100 in non-increasing
    order; the predicted genre is the label of the first bar, and the
    interface is left out of the loading state with the status
    "Classification complete.".  Scores between 0 and 1 give values between
    0 and 100. *)
Theorem displayResults_chart (probs : list Q) (u : UI) :
  probs <> [] ->
  exists u' labels vals,
    displayResults probs u = inr u'
    /\ chart u' = Some (labels, vals)
    /\ labels = genre <$> take 5 (rank probs)
    /\ vals = (fun r => probability r * 100)%Q <$> take 5 (rank probs)
    /\ length labels = Nat.min 5 (length probs)
    /\ length vals = Nat.min 5 (length probs)
    /\ head labels = Some (predictedGenre u')
    /\ StronglySorted (fun a b => (b <= a)%Q) vals
    /\ statusMessage u' = "Classification complete."
    /\ loader_hidden u' = true /\ resultsContent_hidden u' = false
    /\ ((forall p, p ∈ probs -> (0 <= p <= 1)%Q) ->
        forall v, v ∈ vals -> (0 <= v <= 100)%Q).
Proof.
  intros Hne. destruct (rank_nonempty probs Hne) as (topGenre & rest & Hrank).
  eexists _, _, _.
  split; [by apply (displayResults_nonempty probs u topGenre rest) |].
  split; [reflexivity |]. split; [reflexivity |]. split; [reflexivity |].
  unfold top5.
  split; [by rewrite length_map, length_take, rank_length |].
  split; [by rewrite length_map, length_take, rank_length |].
  split; [by rewrite Hrank |].
  split.
  { apply (StronglySorted_fmap _ (fun a b => (probability b <= probability a)%Q)).
    - intros x y Hxy. lra.
    - apply (StronglySorted_app_1_l _ _ (drop 5 (rank probs))).
      rewrite take_drop. apply rank_sorted. }
  split; [reflexivity |]. split; [reflexivity |]. split; [reflexivity |].
  intros Hunit v Hv.
  apply list_elem_of_fmap in Hv as (r & -> & Hr).
  apply elem_of_take in Hr as (k & Hr & _).
  apply list_elem_of_lookup_2 in Hr.
  rewrite rank_perm in Hr. unfold labelled in Hr.
  apply elem_of_lookup_imap in Hr as (i & p & -> & Hp). simpl.
  apply list_elem_of_lookup_2, Hunit in Hp. lra.
Qed.

Lemma displayResults_chart_witness :
  exists u' labels vals,
    displayResults Fixtures.tenScores Fixtures.blankUI = inr u'
    /\ chart u' = Some (labels, vals)
    /\ length labels = 5
    /\ predictedGenre u' = "rock".
Proof.
  destruct (displayResults_chart Fixtures.tenScores Fixtures.blankUI)
    as (u' & labels & vals & Hshow & Hchart & _ & _ & Hlen & _);
    [discriminate |].
  exists u', labels, vals.
  split; [exact Hshow |]. split; [exact Hchart |]. split; [exact Hlen |].
  vm_compute in Hshow. injection Hshow as <-. reflexivity.
Defined.

End RankingProperties.

(** ** Further properties of the inference engine *)

#[local] Set Warnings "-clear-no-such-hyp".

Section InferenceProperties.
Import Worker Main Invariants Props.

(** Case analysis over the statements of the [try] block of
    [runInference]: [tf.tensor], [reshape], [predict], [data],
    [displayResults]. *)
Ltac path_step :=
  cbn [app prediction register fst snd tensor data values
       ui model currentAudioBuffer posted live fresh errors
       with_ui console_error dispose tid].

Ltac inference_paths m features :=
  unfold runInference_try, runInference_catch, tf_tensor, tf_reshape,
    model_predict, tensor_data, assign_prediction, on_app, ui_throws,
    mbind, lift_throws, new_tensor;
  path_step;
  destruct (tensor_of_array features) as [? | t] eqn:Htensor; path_step;
  [| destruct (reshape_to _ t) as [? | t'] eqn:Hreshape; path_step;
     [| destruct (predict m t') as [? | [out [? | probs]]] eqn:Hpredict;
          path_step;
        [| | destruct (displayResults probs _) as [? | u'] eqn:Hshow;
               path_step]]].

Ltac heap_fields :=
  cbn [live fresh ui model currentAudioBuffer posted errors
       with_ui dispose console_error tid].

(** X6.  [runInference] never leaves the prediction tensor registered
    and never disposes a tensor that was there before the call; what it
    leaves behind are at most the two tensors it creates for the input
    ([tf.tensor(features)] and its reshaped copy).  When the classification
    completes, exactly one more tensor is registered than before: the one
    [tf.tensor(features)] returned, which no path disposes. *)
Theorem runInference_tensor_balance (st : App) (features : grid) :
  heap_ok st ->
  heap_ok (runInference features st)
  /\ live st ⊆ live (runInference features st)
  /\ live (runInference features st) ⊆ {[fresh st; S (fresh st)]} ∪ live st
  /\ (statusMessage (ui (runInference features st))
      = "Classification complete." ->
      live (runInference features st) = {[fresh st]} ∪ live st).
Proof.
  intros Hok. unfold runInference.
  destruct (model st) as [m |]; [| heap_fields; set_solver].
  unfold heap_ok in *.
  inference_paths m features; heap_fields.
  1-5: repeat split; try discriminate; set_solver by lia.
  repeat split; [set_solver by lia.. |].
  intros _. apply set_eq. intros i. specialize (Hok i).
  rewrite !elem_of_difference, !elem_of_union, !elem_of_singleton.
  split; [intros [[[? | [? | [? | ?]]] ?] ?]; try lia; auto |].
  intros [-> | Hi]; (split; [split |]); try lia; auto.
  all: specialize (Hok Hi); lia.
Qed.

Lemma runInference_tensor_balance_witness :
  live (runInference Fixtures.silenceGrid
          (Fixtures.readyApp Fixtures.workingModel)) = {[0]}.
Proof.
  destruct (runInference_tensor_balance
              (Fixtures.readyApp Fixtures.workingModel) Fixtures.silenceGrid)
    as (_ & _ & _ & Hdone).
  { intros i Hi. vm_compute in Hi. discriminate Hi. }
  rewrite Hdone by (vm_compute; reflexivity).
  vm_compute. reflexivity.
Defined.


(** X7.  [runInference] always ends the loading state: whichever branch
    runs (no classifier, an exception anywhere in the [try] block, or a
    displayed result), the loader is hidden, the classify button enabled
    and the results content shown when it returns. *)
Theorem runInference_ends_loading (st : App) (features : grid) :
  loader_hidden (ui (runInference features st)) = true
  /\ classifyBtn_disabled (ui (runInference features st)) = false
  /\ resultsContent_hidden (ui (runInference features st)) = false.
Proof.
  unfold runInference. destruct (model st) as [m |]; [| done].
  inference_paths m features; heap_fields; try done.
  unfold displayResults in Hshow.
  destruct (rank probs); [discriminate |]. by injection Hshow as <-.
Qed.

Lemma tensor_of_array_values (features : grid) (t : Tensor) :
  tensor_of_array features = inr t -> values t = concat features.
Proof.
  unfold tensor_of_array.
  destruct features as [| row rest]; by intros [= <-].
Qed.

Lemma tensor_of_array_size (features : grid) (t : Tensor) :
  tensor_of_array features = inr t ->
  foldr Nat.mul 1 (shape t) = inferred_size features.
Proof.
  unfold tensor_of_array, inferred_size.
  destruct features as [| row rest]; intros [= <-]; [done |].
  cbn [shape foldr]. by rewrite Nat.mul_1_r.
Qed.

Lemma tensor_of_array_total (features : grid) :
  exists t, tensor_of_array features = inr t.
Proof. unfold tensor_of_array. destruct features; by eexists. Qed.

Lemma input_size :
  foldr Nat.mul 1 [1; MODEL_INPUT_NUM_FRAMES; MODEL_INPUT_NUM_MELS; 1]
  = MODEL_INPUT_NUM_FRAMES * MODEL_INPUT_NUM_MELS.
Proof. reflexivity. Qed.

Lemma reshape_input (t : Tensor) :
  foldr Nat.mul 1 (shape t) = MODEL_INPUT_NUM_FRAMES * MODEL_INPUT_NUM_MELS ->
  reshape_to INPUT_SHAPE t
  = inr {| shape := INPUT_SHAPE; values := values t |}.
Proof.
  intros Hsize. unfold reshape_to, INPUT_SHAPE. rewrite input_size, Hsize.
  by rewrite Nat.eqb_refl.
Qed.

(** X8.  [runInference] checks the features only through the shape
    [tf.tensor] reads off the array and its first row.  When rows times
    cells of the first row is not 96 x 64, [reshape] throws: the classifier
    is not called, the attempt ends with "Inference failed." and a logged
    error, the results area shows what it showed before, and the tensor
    [tf.tensor] made stays registered.  When it is 96 x 64 the classifier is
    called on all the cells in order, also when later rows are longer or
    shorter than the first, and its answer is displayed. *)
Theorem runInference_checks_inferred_shape (st : App) (m : GraphModel)
    (features : grid) :
  model st = Some m ->
  (inferred_size features <> MODEL_INPUT_NUM_FRAMES * MODEL_INPUT_NUM_MELS ->
   ui (runInference features st) = shown_with "Inference failed." (ui st)
   /\ live (runInference features st) = {[fresh st]} ∪ live st
   /\ errors (runInference features st) <> errors st)
  /\ (inferred_size features = MODEL_INPUT_NUM_FRAMES * MODEL_INPUT_NUM_MELS ->
      forall out probs,
        predict m {| shape := INPUT_SHAPE; values := concat features |}
        = inr (out, inr probs) ->
        probs <> [] ->
        statusMessage (ui (runInference features st))
        = "Classification complete."
        /\ errors (runInference features st) = errors st
        /\ exists topGenre,
             head (rank probs) = Some topGenre
             /\ predictedGenre (ui (runInference features st))
                = genre topGenre).
Proof.
  intros Hm. split.
  - intros Hsize. unfold runInference. rewrite Hm.
    inference_paths m features; heap_fields.
    { destruct (tensor_of_array_total features) as [t Ht]. congruence. }
    { split; [apply setLoading_false_after_true; discriminate |].
      split; [reflexivity |].
      intros Heq. apply (f_equal length) in Heq.
      rewrite length_app in Heq. cbn [length] in Heq. lia. }
    all: exfalso; apply Hsize;
      rewrite <- (tensor_of_array_size _ _ Htensor);
      unfold reshape_to in Hreshape; rewrite input_size in Hreshape;
      destruct (Nat.eqb_spec (MODEL_INPUT_NUM_FRAMES * MODEL_INPUT_NUM_MELS)
                  (foldr Nat.mul 1 (shape t))) as [Heq |];
      [by symmetry | discriminate].
  - intros Hsize out probs Hp Hprobs.
    destruct (tensor_of_array_total features) as [t Ht].
    pose proof (tensor_of_array_size _ _ Ht) as Hts.
    pose proof (reshape_input t ltac:(congruence)) as Hr.
    rewrite (tensor_of_array_values _ _ Ht) in Hr.
    destruct (rank probs) as [| topGenre rest] eqn:Hrank.
    { pose proof (rank_length probs) as Hlen. rewrite Hrank in Hlen.
      destruct probs; [done | discriminate Hlen]. }
    destruct (runInference_success st m features t _ out probs topGenre rest
                Hm Ht Hr Hp Hrank) as (Herr & _ & Hui).
    rewrite Herr, Hui. split; [done |]. split; [done |].
    by exists topGenre.
Qed.

Lemma runInference_checks_inferred_shape_witness :
  statusMessage
    (ui (runInference [[1%Q; 2%Q]; [3%Q]]
           (Fixtures.readyApp Fixtures.workingModel)))
  = "Inference failed."
  /\ length (concat Fixtures.raggedGrid) = 96 * 64 - 1
  /\ statusMessage
       (ui (runInference Fixtures.raggedGrid
              (Fixtures.readyApp Fixtures.workingModel)))
     = "Classification complete.".
Proof.
  destruct (runInference_checks_inferred_shape
              (Fixtures.readyApp Fixtures.workingModel) Fixtures.workingModel
              [[1%Q; 2%Q]; [3%Q]] eq_refl) as [Hreject _].
  destruct Hreject as (Hui & _ & _); [vm_compute; lia |].
  destruct (runInference_checks_inferred_shape
              (Fixtures.readyApp Fixtures.workingModel) Fixtures.workingModel
              Fixtures.raggedGrid eq_refl) as [_ Haccept].
  destruct (Haccept ltac:(vm_compute; reflexivity)
              Fixtures.outTensor Fixtures.tenScores eq_refl
              ltac:(discriminate)) as (Hstatus & _ & _).
  split; [rewrite Hui; reflexivity |].
  split; [vm_compute; reflexivity | exact Hstatus].
Defined.

Lemma concat_rectangular (width : nat) (g : grid) :
  rectangular width g -> length (concat g) = length g * width.
Proof.
  induction 1 as [| fr g Hfr _ IH]; [done |].
  simpl. rewrite length_app, IH, Hfr. done.
Qed.

Lemma tensor_of_rectangular (width : nat) (g : grid) :
  rectangular width g -> g <> [] ->
  tensor_of_array g
  = inr {| shape := [length g; width]; values := concat g |}.
Proof.
  intros Hrect Hne. unfold tensor_of_array.
  destruct g as [| row rest]; [done |].
  apply Forall_cons in Hrect as [Hrow _]. by rewrite Hrow.
Qed.

(** X9.  A grid whose frames all have 64 bands, once padded or truncated
    to 96 frames by the worker, is always accepted by [tf.tensor] and
    [reshape]: the classifier's input has shape [1, 96, 64, 1] and holds the
    frames' cells in order. *)
Theorem features_make_input_tensor (g : grid) :
  rectangular MODEL_INPUT_NUM_MELS g ->
  tbind (tensor_of_array
           (padOrTruncate g MODEL_INPUT_NUM_FRAMES MODEL_INPUT_NUM_MELS))
        (reshape_to INPUT_SHAPE)
  = inr {| shape := INPUT_SHAPE;
           values := concat (padOrTruncate g MODEL_INPUT_NUM_FRAMES
                               MODEL_INPUT_NUM_MELS) |}.
Proof.
  intros Hrect.
  pose proof (padOrTruncate_rectangular g MODEL_INPUT_NUM_FRAMES _ Hrect)
    as Hfeat.
  pose proof (padOrTruncate_length g MODEL_INPUT_NUM_FRAMES
                MODEL_INPUT_NUM_MELS) as Hlen.
  set (features := padOrTruncate _ _ _) in *.
  rewrite (tensor_of_rectangular MODEL_INPUT_NUM_MELS) by
    (done || (intros ->; discriminate Hlen)).
  cbn [tbind]. rewrite reshape_input; [done |].
  cbn [shape foldr]. by rewrite Hlen, Nat.mul_1_r.
Qed.

Lemma features_make_input_tensor_witness :
  exists t,
    tbind (tensor_of_array
             (padOrTruncate [replicate 64 1%Q] MODEL_INPUT_NUM_FRAMES
                MODEL_INPUT_NUM_MELS))
          (reshape_to INPUT_SHAPE) = inr t
    /\ shape t = [1; 96; 64; 1].
Proof.
  eexists. split.
  - apply (features_make_input_tensor [replicate 64 1%Q]).
    repeat constructor.
  - reflexivity.
Defined.

End InferenceProperties.

(** ** Further properties of the orchestration *)

Section OrchestrationProperties.
Import Worker Main Page Invariants Props.

(** X10.  A classifier that returns an empty probability vector makes
    [displayResults] throw before it touches the page: the attempt ends
    with "Inference failed.", the results area shows what it showed before,
    and both the input tensor and the prediction have been disposed by
    then. *)
Theorem empty_probabilities_fail (st : App) (m : GraphModel)
    (features : grid) (t t' out : Tensor) :
  model st = Some m ->
  heap_ok st ->
  tensor_of_array features = inr t ->
  reshape_to [1; MODEL_INPUT_NUM_FRAMES; MODEL_INPUT_NUM_MELS; 1] t = inr t' ->
  predict m t' = inr (out, inr []) ->
  (forall u, exists e, displayResults [] u = inl e)
  /\ ui (runInference features st) = shown_with "Inference failed." (ui st)
  /\ live (runInference features st) = {[fresh st]} ∪ live st.
Proof.
  intros Hm Hok Ht Ht' Hp. split; [intros u; by eexists |].
  unfold runInference. rewrite Hm.
  unfold runInference_try, runInference_catch, tf_tensor, tf_reshape,
    model_predict, tensor_data, assign_prediction, on_app, ui_throws,
    mbind, lift_throws, new_tensor.
  cbn [app prediction register fst snd tensor data].
  rewrite Ht. cbn [app prediction register fst snd tensor data values].
  rewrite Ht'. cbn [app prediction register fst snd tensor data values].
  rewrite Hp. cbn [app prediction register fst snd tensor data values].
  cbn [displayResults rank labelled imap Array_sort foldr].
  cbn [app prediction live fresh ui with_ui dispose console_error tid].
  split; [by apply setLoading_false_after_true |].
  unfold heap_ok in Hok. apply set_eq. intros i. specialize (Hok i).
  rewrite !elem_of_difference, !elem_of_union, !elem_of_singleton.
  naive_solver lia.
Qed.

Lemma empty_probabilities_fail_witness :
  let m := {| predict := fun _ => inr (Fixtures.outTensor, inr []) |} in
  statusMessage (ui (runInference Fixtures.silenceGrid (Fixtures.readyApp m)))
  = "Inference failed."
  /\ live (runInference Fixtures.silenceGrid (Fixtures.readyApp m)) = {[0]}.
Proof.
  cbv zeta.
  set (m := {| predict := fun _ => inr (Fixtures.outTensor, inr []) |}).
  destruct silence_tensor as [Ht Ht'].
  assert (heap_ok (Fixtures.readyApp m)) as Hheap.
  { intros i Hi. vm_compute in Hi. discriminate Hi. }
  destruct (empty_probabilities_fail (Fixtures.readyApp m) m
              Fixtures.silenceGrid _ _ Fixtures.outTensor
              eq_refl Hheap Ht Ht' eq_refl) as (_ & Hui & Hlive).
  rewrite Hui, Hlive. split; [reflexivity | vm_compute; reflexivity].
Defined.

(** X11.  The three outcomes of [loadModel].  A load that rejects leaves
    the classifier slot as it was and reports the error.  A load that
    resolves stores the classifier before the warm-up prediction: when the
    warm-up throws, the status reports "Could not load the ML model." and
    yet the classifier stays stored, so a later classify is accepted.  The
    zero tensor made for the warm-up is never disposed. *)
Theorem loadModel_outcomes (st : App) :
  (forall e,
      model (loadModel (inl e) st) = model st
      /\ live (loadModel (inl e) st) = live st
      /\ statusMessage (ui (loadModel (inl e) st))
         = "Error: Could not load the ML model.")
  /\ (forall m,
        model (loadModel (inr m) st) = Some m
        /\ fresh st ∈ live (loadModel (inr m) st))
  /\ (forall m out rd,
        predict m warmupTensor = inr (out, rd) ->
        heap_ok st ->
        statusMessage (ui (loadModel (inr m) st))
        = "Model loaded. Essentia.js ready. Select a file or record."
        /\ live (loadModel (inr m) st) = {[fresh st]} ∪ live st)
  /\ (forall m e buf,
        predict m warmupTensor = inl e ->
        currentAudioBuffer st = Some buf ->
        statusMessage (ui (loadModel (inr m) st))
        = "Error: Could not load the ML model."
        /\ model (loadModel (inr m) st) = Some m
        /\ posted (handleClassify (loadModel (inr m) st))
           = posted st ++ [Process (channelData0 buf) (sampleRate buf)
                             MODEL_EXPECTED_SAMPLE_RATE
                             MODEL_INPUT_NUM_MELS MODEL_INPUT_NUM_FRAMES]).
Proof.
  split; [done |]. split; [| split].
  - intros m. split; [apply loadModel_resolves |].
    unfold loadModel, register.
    destruct (predict m _) as [? | [? ?]];
      cbn [live fresh ui with_ui with_model dispose console_error tid fst snd];
      set_solver by lia.
  - intros m out rd Hp Hok. unfold loadModel, register.
    change (predict m _) with (predict m warmupTensor). rewrite Hp.
    cbn [live fresh ui with_ui with_model dispose console_error tid fst snd].
    split; [done |].
    unfold heap_ok in Hok. apply set_eq. intros i. specialize (Hok i).
    rewrite !elem_of_difference, !elem_of_union, !elem_of_singleton.
    naive_solver lia.
  - intros m e buf Hp Hbuf.
    destruct (loadModel_resolves m st) as (Hm & Hb & Hposted).
    split; [| split; [done |]].
    + unfold loadModel, register.
      change (predict m _) with (predict m warmupTensor). by rewrite Hp.
    + rewrite (handleClassify_ready _ buf m) by congruence.
      cbn [posted postMessage with_ui]. by rewrite Hposted.
Qed.

Lemma loadModel_outcomes_witness :
  statusMessage (ui (loadModel (inr Fixtures.throwingModel)
                       (Fixtures.readyApp Fixtures.workingModel)))
  = "Error: Could not load the ML model."
  /\ model (loadModel (inr Fixtures.throwingModel)
              (Fixtures.readyApp Fixtures.workingModel))
     = Some Fixtures.throwingModel
  /\ live (loadModel (inr Fixtures.workingModel)
             (Fixtures.readyApp Fixtures.workingModel)) = {[0]}.
Proof.
  destruct (loadModel_outcomes (Fixtures.readyApp Fixtures.workingModel))
    as (_ & _ & Hok & Hthrow).
  destruct (Hthrow Fixtures.throwingModel "predict failed" Fixtures.clip
              eq_refl eq_refl) as (Hstatus & Hm & _).
  destruct (Hok Fixtures.workingModel Fixtures.outTensor
              (inr Fixtures.tenScores) eq_refl) as (_ & Hlive).
  { intros i Hi. vm_compute in Hi. discriminate Hi. }
  split; [exact Hstatus |]. split; [exact Hm |].
  rewrite Hlive. vm_compute. reflexivity.
Defined.

(** X12.  [handleFile] always hides and resets the results area and
    touches neither the classifier, the worker's queue nor the tensors.  A
    decoded clip replaces the current one; a clip that cannot be decoded
    leaves the previous clip in place, so that a later classify still
    processes the previous clip. *)
Theorem handleFile_outcomes (st : App) :
  (forall decoded,
      let st' := handleFile decoded st in
      resultsSection_hidden (ui st') = true
      /\ resultsContent_hidden (ui st') = true
      /\ loader_hidden (ui st') = true
      /\ predictedGenre (ui st') = "..." /\ chart (ui st') = None
      /\ classifyBtn_disabled (ui st') = classifyBtn_disabled (ui st)
      /\ model st' = model st /\ posted st' = posted st
      /\ live st' = live st)
  /\ (forall buf,
        currentAudioBuffer (handleFile (inr buf) st) = Some buf
        /\ statusMessage (ui (handleFile (inr buf) st))
           = "Audio loaded. Ready to classify.")
  /\ (forall e,
        currentAudioBuffer (handleFile (inl e) st) = currentAudioBuffer st
        /\ statusMessage (ui (handleFile (inl e) st))
           = "Error: Could not decode audio file."
        /\ forall previous m,
             currentAudioBuffer st = Some previous -> model st = Some m ->
             posted (handleClassify (handleFile (inl e) st))
             = posted st ++ [Process (channelData0 previous)
                               (sampleRate previous)
                               MODEL_EXPECTED_SAMPLE_RATE
                               MODEL_INPUT_NUM_MELS MODEL_INPUT_NUM_FRAMES]).
Proof.
  split; [by intros [e | buf] |]. split; [done |].
  intros e. split; [done |]. split; [done |].
  intros previous m Hprev Hm.
  by rewrite (handleClassify_ready _ previous m).
Qed.

Lemma handleFile_outcomes_witness :
  let st := handleFile (inl "EncodingError")
              (Fixtures.readyApp Fixtures.workingModel) in
  currentAudioBuffer st = Some Fixtures.clip
  /\ length (posted (handleClassify st)) = 2.
Proof.
  cbv zeta.
  destruct (handleFile_outcomes (Fixtures.readyApp Fixtures.workingModel))
    as (_ & _ & Hfail).
  destruct (Hfail "EncodingError") as (Hclip & _ & Hstale).
  split; [exact Hclip |].
  rewrite (Hstale Fixtures.clip Fixtures.workingModel eq_refl eq_refl).
  reflexivity.
Defined.

(** X13.  A drop hands its first file to [handleFile] exactly when
    that file's type starts with "audio/" (the other files are ignored);
    otherwise the drop changes nothing but the status, and does not reset
    the results.  The file picker hands its first file to [handleFile]
    whatever its type, and does nothing when no file was picked.  Either
    way the current clip changes only to a clip decoded from that first
    file. *)
Theorem file_intake (files : list File) (st : App) :
  (forall file,
      head files = Some file ->
      String.prefix "audio/" (type file) = true ->
      handleDrop files st = handleFile (decoding file) st)
  /\ ((forall file, head files = Some file ->
                    String.prefix "audio/" (type file) = false) ->
      handleDrop files st
      = with_ui (updateStatus "Error: Please drop a valid audio file.") st)
  /\ (forall file,
        head files = Some file ->
        fileInput_change files st = handleFile (decoding file) st)
  /\ (files = [] -> fileInput_change files st = st)
  /\ (currentAudioBuffer (handleDrop files st) = currentAudioBuffer st
      \/ exists file buf,
           head files = Some file
           /\ String.prefix "audio/" (type file) = true
           /\ decoding file = inr buf
           /\ currentAudioBuffer (handleDrop files st) = Some buf)
  /\ (currentAudioBuffer (fileInput_change files st) = currentAudioBuffer st
      \/ exists file buf,
           head files = Some file /\ decoding file = inr buf
           /\ currentAudioBuffer (fileInput_change files st) = Some buf)
  /\ model (handleDrop files st) = model st
  /\ model (fileInput_change files st) = model st.
Proof.
  unfold handleDrop, fileInput_change.
  destruct files as [| file rest]; cbn [head].
  { repeat split; auto; discriminate. }
  split; [by intros ? [= <-] -> |].
  split; [intros Hno; by rewrite (Hno file eq_refl) |].
  split; [by intros ? [= <-] |].
  split; [done |].
  split.
  { destruct (String.prefix "audio/" (type file)) eqn:Htype; [| by left].
    destruct (decoding file) as [e | buf] eqn:Hdec; [by left |].
    right. by exists file, buf. }
  split.
  { destruct (decoding file) as [e | buf] eqn:Hdec; [by left |].
    right. by exists file, buf. }
  destruct (String.prefix "audio/" (type file));
    by destruct (decoding file).
Qed.

Lemma file_intake_witness :
  let pdf := {| type := "application/pdf";
                decoding := inl "EncodingError" |} in
  let wav := {| type := "audio/wav"; decoding := inr Fixtures.clip |} in
  let st := with_audio None (Fixtures.readyApp Fixtures.workingModel) in
  handleDrop [pdf; wav] st
  = with_ui (updateStatus "Error: Please drop a valid audio file.") st
  /\ handleDrop [wav; pdf] st = handleFile (inr Fixtures.clip) st
  /\ currentAudioBuffer (handleDrop [wav; pdf] st) = Some Fixtures.clip
  /\ fileInput_change [pdf; wav] st = handleFile (inl "EncodingError") st
  /\ statusMessage (ui (fileInput_change [pdf; wav] st))
     = "Error: Could not decode audio file.".
Proof.
  cbv zeta.
  set (pdf := {| type := "application/pdf";
                 decoding := inl "EncodingError" |}).
  set (wav := {| type := "audio/wav"; decoding := inr Fixtures.clip |}).
  set (st := with_audio None (Fixtures.readyApp Fixtures.workingModel)).
  destruct (file_intake [pdf; wav] st) as (_ & Hreject & Hpick & _).
  destruct (file_intake [wav; pdf] st) as (Hdrop & _).
  split; [apply Hreject; by intros file [= <-] |].
  split; [exact (Hdrop wav eq_refl eq_refl) |].
  split; [rewrite (Hdrop wav eq_refl eq_refl); reflexivity |].
  split; [exact (Hpick pdf eq_refl) |].
  rewrite (Hpick pdf eq_refl). reflexivity.
Defined.

Lemma classify_unfold essentia log10 (st : App) buf m :
  currentAudioBuffer st = Some buf -> model st = Some m ->
  classify essentia log10 st
  = essentiaWorker_onmessage
      (process essentia log10 (channelData0 buf) (sampleRate buf)
         MODEL_EXPECTED_SAMPLE_RATE MODEL_INPUT_NUM_MELS
         MODEL_INPUT_NUM_FRAMES)
      (handleClassify st).
Proof.
  intros Hbuf Hm. unfold classify, worker_answer.
  rewrite (handleClassify_ready st buf m) by done.
  cbn [posted postMessage with_ui]. rewrite length_app, last_snoc.
  by rewrite decide_True by (simpl; lia).
Qed.




End OrchestrationProperties.

(** ** The worker before initialisation, the whole pipeline, the timer *)

Section PipelineProperties.
Import Worker Main Page Invariants Props.

(** X15.  Until an 'init' message has been handled successfully the
    worker answers every 'process' request with the same error and stays
    uninitialised; an 'init' whose module fails to load is silent (no
    message is posted, nothing changes).  [handleClassify] does not wait for
    the worker's 'ready': a classification started in that state ends with
    "Feature extraction failed." and the error is logged. *)
Theorem worker_before_init imported log10 (queue : list request) :
  Forall (fun r => exists audioData sr targetSr numMels numFrames,
                     r = Process audioData sr targetSr numMels numFrames)
         queue ->
  serve imported log10 None queue
  = (None, replicate (length queue) (Error ESSENTIA_UNDEFINED))
  /\ (forall e wasmPath,
        serve (inl e) log10 None (Init wasmPath :: queue)
        = serve (inl e) log10 None queue)
  /\ (forall (st : App) buf m,
        currentAudioBuffer st = Some buf -> model st = Some m ->
        ui (classify None log10 st)
        = shown_with "Feature extraction failed." (ui st)
        /\ errors (classify None log10 st)
           = errors st ++ ["Error from Essentia.js worker: "
                           +:+ ESSENTIA_UNDEFINED]).
Proof.
  intros Hqueue. split; [| split].
  - induction Hqueue as [| r queue (a & sr & t & nm & nf & ->) _ IH];
      [done |].
    cbn [serve onmessage]. rewrite IH. done.
  - intros e wasmPath. cbn [serve onmessage].
    by destruct (serve (inl e) log10 None queue).
  - intros st buf m Hbuf Hm.
    rewrite (classify_unfold _ _ _ buf m) by done.
    rewrite (handleClassify_ready st buf m) by done.
    cbn [process process_body essentiaWorker_onmessage].
    split; [| done].
    cbn [ui with_ui postMessage console_error].
    by apply setLoading_false_after_true.
Qed.

Lemma worker_before_init_witness :
  serve (inr Fixtures.stubEssentia) Fixtures.stubLog10 None
    [Process [1%Q] 22050 22050 64 96; Process [] 44100 22050 64 96]
  = (None, [Error ESSENTIA_UNDEFINED; Error ESSENTIA_UNDEFINED]).
Proof.
  apply (worker_before_init (inr Fixtures.stubEssentia) Fixtures.stubLog10
           [Process [1%Q] 22050 22050 64 96; Process [] 44100 22050 64 96]).
  repeat constructor; by eexists _, _, _, _, _.
Defined.

(** X16.  A classification completes whenever Essentia returns frames of
    64 bands and the classifier returns a non-empty score vector for the
    resulting input: whatever the length of the clip, the features reshape
    to [1, 96, 64, 1], nothing is logged, the status is "Classification
    complete." and the page shows the top genre of the ranking and its
    first five entries. *)
Theorem classify_completes (es : Essentia) log10 (st : App) buf m
    signal melbands out probs :
  currentAudioBuffer st = Some buf -> model st = Some m ->
  resample_step es (channelData0 buf) (sampleRate buf)
    MODEL_EXPECTED_SAMPLE_RATE = inr signal ->
  MelSpectrogram es signal MODEL_EXPECTED_SAMPLE_RATE 2048 1024
    MODEL_INPUT_NUM_MELS "triangle" "unit_area" 0%Q
    (inject_Z MODEL_EXPECTED_SAMPLE_RATE / 2)%Q (1 # 2)%Q = inr melbands ->
  rectangular MODEL_INPUT_NUM_MELS melbands ->
  predict m
    {| shape := INPUT_SHAPE;
       values := concat (padOrTruncate (map (logFrame log10) melbands)
                           MODEL_INPUT_NUM_FRAMES MODEL_INPUT_NUM_MELS) |}
  = inr (out, inr probs) ->
  probs <> [] ->
  statusMessage (ui (classify (Some es) log10 st))
  = "Classification complete."
  /\ errors (classify (Some es) log10 st) = errors st
  /\ exists topGenre,
       head (rank probs) = Some topGenre
       /\ predictedGenre (ui (classify (Some es) log10 st)) = genre topGenre
       /\ chart (ui (classify (Some es) log10 st))
          = Some (map genre (top5 (rank probs)),
                  map (fun r => probability r * 100)%Q (top5 (rank probs))).
Proof.
  intros Hbuf Hm Hres Hmel Hrect Hp Hprobs.
  rewrite (classify_unfold _ _ _ buf m) by done.
  unfold process, process_body. rewrite Hres. cbn [tbind]. rewrite Hmel.
  cbn [tbind essentiaWorker_onmessage].
  set (features := padOrTruncate _ _ _) in *.
  pose proof (logFrame_rectangular log10 _ _ Hrect) as Hlog.
  pose proof (features_make_input_tensor _ Hlog) as Htensor.
  fold features in Htensor.
  destruct (tensor_of_array features) as [? | t] eqn:Ht; [discriminate |].
  cbn [tbind] in Htensor.
  destruct (rank_nonempty probs Hprobs) as (topGenre & rest & Hrank).
  rewrite (handleClassify_ready st buf m) by done.
  destruct (runInference_success
              (postMessage (Process (channelData0 buf) (sampleRate buf)
                              MODEL_EXPECTED_SAMPLE_RATE
                              MODEL_INPUT_NUM_MELS MODEL_INPUT_NUM_FRAMES)
                 (with_ui (setLoading true "Extracting features...") st))
              m features t _ out probs topGenre rest Hm Ht Htensor Hp Hrank)
    as (Herr & _ & Hui).
  rewrite Herr, Hui. split; [done |]. split; [done |].
  exists topGenre. by rewrite Hrank.
Qed.

Lemma classify_completes_witness :
  let es := SpecModel.specEssentia Fixtures.noResample Fixtures.zeroBands in
  let st := with_audio
              (Some {| channelData0 := Fixtures.longSignal;
                       sampleRate := 22050 |})
              (Fixtures.readyApp Fixtures.workingModel) in
  statusMessage (ui (classify (Some es) Fixtures.stubLog10 st))
  = "Classification complete."
  /\ errors (classify (Some es) Fixtures.stubLog10 st) = [].
Proof.
  cbv zeta.
  edestruct (classify_completes
               (SpecModel.specEssentia Fixtures.noResample Fixtures.zeroBands)
               Fixtures.stubLog10
               (with_audio
                  (Some {| channelData0 := Fixtures.longSignal;
                           sampleRate := 22050 |})
                  (Fixtures.readyApp Fixtures.workingModel))
               _ Fixtures.workingModel Fixtures.longSignal _
               Fixtures.outTensor Fixtures.tenScores
               eq_refl eq_refl eq_refl eq_refl)
    as (Hstatus & Herr & _).
  - apply Forall_map, Forall_forall. intros fr _. reflexivity.
  - reflexivity.
  - discriminate.
  - split; [exact Hstatus | exact Herr].
Defined.

Lemma forallb_below (P : nat -> bool) (n : nat) :
  forallb P (seq 0 n) = true -> forall k, k < n -> P k = true.
Proof.
  intros Hall k Hk. rewrite forallb_forall in Hall.
  apply Hall, in_seq. lia.
Qed.

(** X17.  After [k] ticks the recording timer holds [k] seconds and shows
    the text for [k].  For recordings shorter than 100 minutes that text is
    exactly five characters, minutes and seconds with two digits each
    around a colon, and reads back as [k]. *)
Theorem timer_shows_elapsed (k : nat) :
  Nat.iter k timer_tick timer_start = (k, timerText k)
  /\ (k < 100 * 60 ->
      String.length (timerText k) = 5
      /\ read_timer (timerText k) = Some k).
Proof.
  split.
  - induction k as [| k IH]; [reflexivity |].
    cbn [Nat.iter nat_rect]. fold (Nat.iter k timer_tick timer_start).
    rewrite IH. reflexivity.
  - intros Hk.
    pose (check := fun k =>
      (String.length (timerText k) =? 5)
      && match read_timer (timerText k) with
         | Some v => v =? k
         | None => false
         end).
    assert (check k = true) as Hcheck.
    { apply (forallb_below check (100 * 60)); [vm_compute; reflexivity | done]. }
    unfold check in Hcheck. apply andb_prop in Hcheck as [Hlen Hread].
    apply Nat.eqb_eq in Hlen.
    destruct (read_timer (timerText k)) as [v |]; [| discriminate].
    apply Nat.eqb_eq in Hread. by subst v.
Qed.

Lemma timer_shows_elapsed_witness :
  Nat.iter 754 timer_tick timer_start = (754, "12:34")
  /\ read_timer "12:34" = Some 754
  /\ timerText (100 * 60) = "100:00".
Proof.
  destruct (timer_shows_elapsed 754) as [Hticks Hformat].
  destruct Hformat as [_ Hread]; [lia |].
  split; [rewrite Hticks; reflexivity |].
  split; [exact Hread | reflexivity].
Defined.

End PipelineProperties.
